(** * Polymarket trader scripts: a shallow embedding

    The repository holds two scripts that talk to one analytics endpoint:

    - [scripts/crawl-polymarket-traders.py]: a paginated crawl with fixed
      filters, written to [traders.json];
    - [scripts/categorize-polymarket-traders.py]: one request per category,
      written to [traders-by-category.json], and a per-trader index written
      to [traders-category-lookup.json].

    Both are embedded as functions over an explicit world (requests sent,
    standard output, files) with Python's exceptions as an error result.
    The remote endpoint is a function from requests to responses; neither
    script sends the same request twice in a run, so every interaction a run
    can have with a server is the interaction with one such function. *)

From Stdlib Require Import ZArith String Ascii List Lia Sorted Permutation.
From Stdlib Require Import SpecFloat DecimalString.
From stdpp Require Import base list strings gmap.

Set Warnings "-register-all".

Open Scope string_scope.
Open Scope Z_scope.
Open Scope list_scope.

(* ===================================================================== *)
(** ** Python values                                                      *)
(* ===================================================================== *)

Module Py.

(** A JSON number as [json.loads] yields it: an [int] of any size or a
    binary64 [float]. *)
Inductive number :=
  | NInt (z : Z)
  | NFloat (f : spec_float).

(** The values [response.json()] can produce.  [JObj] is a [dict] in
    insertion order; a parsed dict holds each key once. *)
Inductive json :=
  | JNull
  | JBool (b : bool)
  | JNum (n : number)
  | JStr (s : string)
  | JArr (l : list json)
  | JObj (d : list (string * json)).

Inductive transport_error := ConnectionError | Timeout | TooManyRedirects.

(** [requests.RequestException] as the scripts can meet it: raised by
    [requests.post] (no usable response), by [raise_for_status], or by
    [response.json()] on a body that is not JSON
    ([requests.JSONDecodeError], a [RequestException]). *)
Inductive request_error :=
  | Transport (e : transport_error)
  | HTTPError (status : Z)
  | InvalidJSON.

Inductive exn :=
  | RequestException (e : request_error)
  | KeyError (k : json)
  | IndexError
  | TypeError
  | ValueError
  | AttributeError
  | OverflowError.

Inductive outcome (A : Type) :=
  | Ok (a : A)
  | Raise (e : exn).
Arguments Ok {A} a.
Arguments Raise {A} e.

Definition obind {A B} (o : outcome A) (k : A -> outcome B) : outcome B :=
  match o with
  | Ok a => k a
  | Raise e => Raise e
  end.

(** *** Dicts in insertion order *)

Section Dict.
Context {K V : Type} (same : K -> K -> bool).

Fixpoint dict_lookup (k : K) (d : list (K * V)) : option V :=
  match d with
  | [] => None
  | (k', v) :: d' => if same k' k then Some v else dict_lookup k d'
  end.

(** [d[k] = v]: an existing key keeps its place (and its key object), a new
    key goes last. *)
Fixpoint dict_set (k : K) (v : V) (d : list (K * V)) : list (K * V) :=
  match d with
  | [] => [(k, v)]
  | (k', v') :: d' =>
      if same k' k then (k', v) :: d' else (k', v') :: dict_set k v d'
  end.

Definition dict_mem (k : K) (d : list (K * V)) : bool :=
  match dict_lookup k d with Some _ => true | None => false end.
End Dict.

Definition str_lookup {V} := @dict_lookup string V String.eqb.
Definition str_set {V} := @dict_set string V String.eqb.

(** *** Built-ins *)

Definition float_is_zero (f : spec_float) : bool :=
  match f with S754_zero _ => true | _ => false end.

(** [bool(v)] *)
Definition truthy (v : json) : bool :=
  match v with
  | JNull => false
  | JBool b => b
  | JNum (NInt z) => negb (Z.eqb z 0)
  | JNum (NFloat f) => negb (float_is_zero f)
  | JStr s => negb (String.eqb s EmptyString)
  | JArr l => match l with [] => false | _ => true end
  | JObj d => match d with [] => false | _ => true end
  end.

(** [len(v)] *)
Definition py_len (v : json) : outcome Z :=
  match v with
  | JStr s => Ok (Z.of_nat (String.length s))
  | JArr l => Ok (Z.of_nat (length l))
  | JObj d => Ok (Z.of_nat (length d))
  | _ => Raise TypeError
  end.

Definition chars (s : string) : list json :=
  map (fun c => JStr (String c EmptyString)) (list_ascii_of_string s).

(** [list(v)]: what [for t in v] and [list.extend(v)] go through. *)
Definition py_iter (v : json) : outcome (list json) :=
  match v with
  | JArr l => Ok l
  | JStr s => Ok (chars s)
  | JObj d => Ok (map (fun kv => JStr (fst kv)) d)
  | _ => Raise TypeError
  end.

(** [v[k]] for a string literal [k]. *)
Definition getitem (v : json) (k : string) : outcome json :=
  match v with
  | JObj d =>
      match str_lookup k d with
      | Some x => Ok x
      | None => Raise (KeyError (JStr k))
      end
  | _ => Raise TypeError
  end.

(** [v[0]] *)
Definition getitem0 (v : json) : outcome json :=
  match v with
  | JArr l => match l with x :: _ => Ok x | [] => Raise IndexError end
  | JStr s =>
      match s with
      | String c _ => Ok (JStr (String c EmptyString))
      | EmptyString => Raise IndexError
      end
  | JObj _ => Raise (KeyError (JNum (NInt 0)))
  | _ => Raise TypeError
  end.

(** [v.get(k, default)]: only a dict has the method. *)
Definition py_get (v : json) (k : string) (default : json) : outcome json :=
  match v with
  | JObj d =>
      match str_lookup k d with
      | Some x => Ok x
      | None => Ok default
      end
  | _ => Raise AttributeError
  end.

(** *** Hashing and key equality

    A dict key is found by [==] on hashable values: [True == 1 == 1.0], and a
    float equals the int of the same value.  [pykey] is the normal form that
    [==] compares; lists and dicts are unhashable. *)

Inductive pykey :=
  | KNone
  | KInt (z : Z)
  | KFrac (neg : bool) (m : positive) (e : Z)
  | KInf (neg : bool)
  | KNaN
  | KStr (s : string).

Fixpoint strip_zeros (m : positive) (e : Z) : positive * Z :=
  match m with
  | xO m' => strip_zeros m' (e + 1)
  | _ => (m, e)
  end.

Definition float_key (f : spec_float) : pykey :=
  match f with
  | S754_zero _ => KInt 0
  | S754_infinity s => KInf s
  | S754_nan => KNaN
  | S754_finite s m e =>
      let '(m', e') := strip_zeros m e in
      if 0 <=? e'
      then KInt ((if s then -1 else 1) * (Z.pos m' * 2 ^ e'))
      else KFrac s m' e'
  end.

Definition hash_key (v : json) : outcome pykey :=
  match v with
  | JNull => Ok KNone
  | JBool b => Ok (KInt (if b then 1 else 0))
  | JNum (NInt z) => Ok (KInt z)
  | JNum (NFloat f) => Ok (float_key f)
  | JStr s => Ok (KStr s)
  | JArr _ | JObj _ => Raise TypeError
  end.

Global Instance pykey_eq_dec : EqDecision pykey.
Proof. solve_decision. Defined.

(** Key comparison between a stored key object and a probe. *)
Definition same_key (a b : json) : bool :=
  match hash_key a, hash_key b with
  | Ok ka, Ok kb => bool_decide (ka = kb)
  | _, _ => false
  end.

End Py.

(* ===================================================================== *)
(** ** The endpoint, the world and the effects of a run                   *)
(* ===================================================================== *)

Module Sys.
Import Py.

(** What [requests.post(url, headers=..., json=..., timeout=...)] sends. *)
Record request := Request {
  url : string;
  headers : list (string * string);
  body : json;
  timeout : Z
}.

(** What comes back: no usable response (the call itself raises), a
    status line with a JSON payload, or a status line with a body that is
    not JSON. *)
Inductive response :=
  | NoResponse (e : transport_error)
  | Response (status : Z) (payload : json)
  | Undecodable (status : Z).

Definition server := request -> response.

(** A piece of printed text.  Text that Python computes from a value is kept
    as the value and the format applied to it. *)
Inductive frag :=
  | Lit (s : string)
  | FInt (z : Z)                 (* [{z}] for an int *)
  | FStr (v : json)              (* [{v}], that is [str(v)] *)
  | FFixed2 (n : number)         (* [{n:,.2f}] *)
  | FPercent1 (n : number)       (* [{n*100:.1f}] *)
  | FErr (e : request_error)     (* [{e}] for a caught exception *)
  | FPath (name : string).       (* [Path(__file__).parent / name] *)

Record world := World {
  sent : list request;           (* requests issued, oldest first *)
  naps : nat;                    (* calls of [time.sleep(0.5)] *)
  stdout : list frag;
  files : gmap string string     (* the script's directory *)
}.

Definition M (A : Type) : Type := world -> outcome A * world.

Definition ret {A} (a : A) : M A := fun w => (Ok a, w).

Definition bind {A B} (m : M A) (k : A -> M B) : M B :=
  fun w =>
    match m w with
    | (Ok a, w') => k a w'
    | (Raise e, w') => (Raise e, w')
    end.

Definition lift {A} (o : outcome A) : M A := fun w => (o, w).

Declare Scope py_scope.
Delimit Scope py_scope with py.
Notation "x <- c1 ;; c2" := (bind c1 (fun x => c2))
  (at level 100, c1 at next level, right associativity) : py_scope.
Notation "c1 ;; c2" := (bind c1 (fun _ => c2))
  (at level 100, right associativity) : py_scope.
Open Scope py_scope.

(** [try: body except requests.RequestException as e: handler(e)] *)
Definition try_except {A} (body : M A) (handler : request_error -> M A) : M A :=
  fun w =>
    match body w with
    | (Raise (RequestException e), w') => handler e w'
    | r => r
    end.

Definition nl : string := String (ascii_of_nat 10) EmptyString.

Definition print_end (fs : list frag) (end_ : string) : M unit :=
  fun w => (Ok tt, World (sent w) (naps w) (stdout w ++ fs ++ [Lit end_]) (files w)).

Definition print (fs : list frag) : M unit := print_end fs nl.

Definition sleep : M unit :=
  fun w => (Ok tt, World (sent w) (S (naps w)) (stdout w) (files w)).

(** [with open(path, 'w') as f: f.write(text)] *)
Definition write_file (name text : string) : M unit :=
  fun w => (Ok tt, World (sent w) (naps w) (stdout w) (<[name := text]> (files w))).

Definition requests_post (srv : server) (r : request) : M response :=
  fun w =>
    let w' := World (sent w ++ [r]) (naps w) (stdout w) (files w) in
    match srv r with
    | NoResponse e => (Raise (RequestException (Transport e)), w')
    | resp => (Ok resp, w')
    end.

(** [response.raise_for_status()]: 4xx and 5xx raise [HTTPError]. *)
Definition raise_for_status (resp : response) : M unit :=
  match resp with
  | Response status _ | Undecodable status =>
      if (400 <=? status) && (status <? 600)
      then lift (Raise (RequestException (HTTPError status)))
      else ret tt
  | NoResponse e => lift (Raise (RequestException (Transport e)))
  end.

(** [response.json()]: a body that is not JSON raises
    [requests.JSONDecodeError]. *)
Definition response_json (resp : response) : M json :=
  match resp with
  | Response _ payload => ret payload
  | Undecodable _ => lift (Raise (RequestException InvalidJSON))
  | NoResponse e => lift (Raise (RequestException (Transport e)))
  end.

(** [for x in l: s = body(x, s)] *)
Fixpoint for_each {A S} (l : list A) (body : A -> S -> M S) (s : S) : M S :=
  match l with
  | [] => ret s
  | x :: l' => s' <- body x s;; for_each l' body s'
  end.

Fixpoint rep (s : string) (n : nat) : string :=
  match n with
  | O => EmptyString
  | S n' => s +:+ rep s n'
  end.

(** *** Number formatting

    An int is converted to a float before it is formatted with [f]; the
    conversion raises [OverflowError] from [2^1024 - 2^970] on, the first
    int that rounds to no finite binary64. *)

Definition float_range (z : Z) : bool := Z.abs z <? 2 ^ 1024 - 2 ^ 970.

Definition int_of_bool (b : bool) : Z := if b then 1 else 0.

(** [f"{v:,.2f}"] *)
Definition format_fixed2 (v : json) : outcome frag :=
  match v with
  | JNum (NInt z) =>
      if float_range z then Ok (FFixed2 (NInt z)) else Raise OverflowError
  | JNum (NFloat f) => Ok (FFixed2 (NFloat f))
  | JBool b => Ok (FFixed2 (NInt (int_of_bool b)))
  | JStr _ => Raise ValueError
  | _ => Raise TypeError
  end.

(** [f"{v*100:.1f}"]: [v*100] is an int for an int, a float for a float, a
    longer str or list for a str or list, and a [TypeError] otherwise. *)
Definition format_percent1 (v : json) : outcome frag :=
  match v with
  | JNum (NInt z) =>
      if float_range (z * 100) then Ok (FPercent1 (NInt z)) else Raise OverflowError
  | JNum (NFloat f) => Ok (FPercent1 (NFloat f))
  | JBool b => Ok (FPercent1 (NInt (int_of_bool b)))
  | JStr _ => Raise ValueError
  | _ => Raise TypeError
  end.

(** [v[:10]].  Slicing a dict fails; CPython before 3.12 reports the
    unhashable slice as a [TypeError]. *)
Definition slice10 (v : json) : outcome json :=
  match v with
  | JStr s => Ok (JStr (String.substring 0 10 s))
  | JArr l => Ok (JArr (take 10 l))
  | _ => Raise TypeError
  end.

(** *** [json.dump(obj, f, indent=2)]

    The text of a float and the quoting of a string are the interpreter's
    ([float.__repr__], [encode_basestring_ascii]); the layout is written
    out. *)

Class JsonText := {
  float_repr : spec_float -> string;
  encode_basestring : string -> string
}.

Definition int_repr (z : Z) : string := NilZero.string_of_int (Z.to_int z).

Fixpoint join (sep : string) (l : list string) : string :=
  match l with
  | [] => EmptyString
  | [x] => x
  | x :: l' => x +:+ sep +:+ join sep l'
  end.

Definition newline_indent (level : nat) : string := nl +:+ rep " " (2 * level).

Section Dump.
Context `{JsonText}.

Fixpoint dump (level : nat) (v : json) : string :=
  match v with
  | JNull => "null"
  | JBool true => "true"
  | JBool false => "false"
  | JNum (NInt z) => int_repr z
  | JNum (NFloat f) => float_repr f
  | JStr s => encode_basestring s
  | JArr [] => "[]"
  | JArr l =>
      "[" +:+ newline_indent (S level)
      +:+ join ("," +:+ newline_indent (S level)) (map (dump (S level)) l)
      +:+ newline_indent level +:+ "]"
  | JObj [] => "{}"
  | JObj d =>
      "{" +:+ newline_indent (S level)
      +:+ join ("," +:+ newline_indent (S level))
            (map (fun kv => encode_basestring (fst kv) +:+ ": " +:+ dump (S level) (snd kv)) d)
      +:+ newline_indent level +:+ "}"
  end.

(** The text a dict key is written as. *)
Definition key_text (k : json) : string :=
  match k with
  | JStr s => s
  | JNum (NFloat f) => float_repr f
  | JBool true => "true"
  | JBool false => "false"
  | JNull => "null"
  | JNum (NInt z) => int_repr z
  | JArr _ | JObj _ => EmptyString   (* unhashable: never a key *)
  end.
End Dump.

End Sys.

(* ===================================================================== *)
(** ** scripts/crawl-polymarket-traders.py                                *)
(* ===================================================================== *)

Module Crawler.
Import Py Sys.

Definition API_URL : string :=
  "https://polymarketanalytics.com/api/traders-tag-performance".

Definition json_headers : list (string * string) :=
  [("Content-Type", "application/json")].

Definition int (z : Z) : json := JNum (NInt z).

(** The request of one loop iteration. *)
Definition page_request (min_win_rate min_positions page_size page : Z) : request :=
  {| url := API_URL;
     headers := json_headers;
     body := JObj [ ("tag", JStr "Overall");
                    ("page", int page);
                    ("pageSize", int page_size);
                    ("sortBy", JStr "pnl");
                    ("sortDirection", JStr "desc");
                    ("minWinRate", int min_win_rate);
                    ("minTotalPositions", int min_positions) ];
     timeout := 30 |}.

(** How an iteration of [while True] ends. *)
Inductive ctl := Break | Next.

Section Crawl.
Variable srv : server.
Variables min_win_rate min_positions page_size : Z.

(** The body of the loop, with the locals [page] and [all_traders]
    passed in and out. *)
Definition crawl_step (page : Z) (all_traders : list json)
  : M (ctl * Z * list json) :=
  try_except
    (response <- requests_post srv
                   (page_request min_win_rate min_positions page_size page);;
     raise_for_status response;;
     data <- response_json response;;
     traders <- lift (py_get data "data" (JArr []));;
     if negb (truthy traders) then ret (Break, page, all_traders)
     else
       items <- lift (py_iter traders);;
       let all_traders := (all_traders ++ items) in
       n <- lift (py_len traders);;
       print [Lit "Page "; FInt page; Lit ": "; FInt n;
              Lit " traders (Total: "; FInt (Z.of_nat (length all_traders));
              Lit ")"];;
       if n <? page_size then ret (Break, page, all_traders)
       else
         sleep;;
         ret (Next, page + 1, all_traders))
    (fun e =>
       print [Lit "Error on page "; FInt page; Lit ": "; FErr e];;
       ret (Break, page, all_traders)).

(** [while True], unrolled [fuel] times; [None] when the loop is still
    running after that many iterations. *)
Fixpoint crawl_loop (fuel : nat) (page : Z) (all_traders : list json)
                    (w : world) : option (outcome (list json) * world) :=
  match fuel with
  | O => None
  | S fuel' =>
      match crawl_step page all_traders w with
      | (Raise e, w') => Some (Raise e, w')
      | (Ok (Break, _, all_traders'), w') => Some (Ok all_traders', w')
      | (Ok (Next, page', all_traders'), w') =>
          crawl_loop fuel' page' all_traders' w'
      end
  end.

Definition crawl_traders (fuel : nat) (w : world)
  : option (outcome (list json) * world) :=
  match
    (print [Lit "Crawling traders with filters: win_rate >= ";
            FInt min_win_rate; Lit "%, positions >= "; FInt min_positions];;
     print [Lit (rep "-" 60)]) w
  with
  | (Ok _, w') => crawl_loop fuel 1 [] w'
  | (Raise e, w') => Some (Raise e, w')
  end.
End Crawl.

Section Main.
Context `{JsonText}.
Variable srv : server.

(** One round of [for i, t in enumerate(traders[:5], 1)]. *)
Definition print_top (i : Z) (t : json) : M unit :=
  name <- lift (getitem t "trader_name");;
  addr <- lift (getitem t "trader");;
  short <- lift (slice10 addr);;
  print [FInt i; Lit ". "; FStr name; Lit " ("; FStr short; Lit "...)"];;
  gain <- lift (getitem t "overall_gain");;
  pnl <- lift (format_fixed2 gain);;
  rate <- lift (getitem t "win_rate");;
  wr <- lift (format_percent1 rate);;
  positions <- lift (getitem t "total_positions");;
  print [Lit "   PnL: $"; pnl; Lit " | Win Rate: "; wr; Lit "% | Positions: ";
         FStr positions].

Definition output_name : string := "traders.json".

Definition report (traders : list json) : M unit :=
  if negb (truthy (JArr traders)) then
    print [Lit "No traders found matching criteria."]
  else
    write_file output_name (dump 0 (JArr traders));;
    print [Lit (rep "-" 60)];;
    print [Lit "Total traders: "; FInt (Z.of_nat (length traders))];;
    print [Lit "Saved to: "; FPath output_name];;
    print [Lit (nl +:+ "Top 5 Traders by PnL:")];;
    print [Lit (rep "-" 60)];;
    for_each (take 5 traders)
      (fun t i => print_top i t;; ret (i + 1)) 1;;
    ret tt.

Definition main (fuel : nat) (w : world) : option (outcome unit * world) :=
  match crawl_traders srv 67 30 100 fuel w with
  | None => None
  | Some (Raise e, w') => Some (Raise e, w')
  | Some (Ok traders, w') => Some (report traders w')
  end.
End Main.

End Crawler.

(* ===================================================================== *)
(** ** scripts/categorize-polymarket-traders.py                           *)
(* ===================================================================== *)

Module Categorizer.
Import Py Sys.

Definition API_URL : string :=
  "https://polymarketanalytics.com/api/traders-tag-performance".

Definition CATEGORIES : list string :=
  [ "Sports"; "Politics"; "Crypto"; "Soccer"; "Basketball"; "NFL"; "Tennis";
    "Trump"; "Elections"; "Bitcoin"; "Ethereum" ].

Definition default_limit : Z := 100.

Definition int (z : Z) : json := JNum (NInt z).

Definition category_request (category : string) (limit : Z) : request :=
  {| url := API_URL;
     headers := [("Content-Type", "application/json")];
     body := JObj [ ("tag", JStr category);
                    ("page", int 1);
                    ("pageSize", int limit);
                    ("sortBy", JStr "pnl");
                    ("sortDirection", JStr "desc") ];
     timeout := 30 |}.

(** The CategorySnapshot: the dict [categorized]. *)
Definition snapshot := list (string * json).

(** A value of the TraderCategoryIndex:
    [{'trader_name': ..., 'categories': {...}}]. *)
Record entry := Entry {
  trader_name : json;
  categories : list (string * json)
}.

(** The dict [trader_categories], keyed by the address objects. *)
Definition index := list (json * entry).

Definition index_lookup (addr : json) (tc : index) : option entry :=
  dict_lookup same_key addr tc.

Definition index_set (addr : json) (e : entry) (tc : index) : index :=
  dict_set same_key addr e tc.

(** [sorted(l, key=...)]: the keys are computed first, in order; the sort is
    stable and ascending in the key. *)
Section Sorted.
Context {A : Type}.

Fixpoint insert_by_key (x : Z * A) (l : list (Z * A)) : list (Z * A) :=
  match l with
  | [] => [x]
  | y :: l' =>
      if fst x <=? fst y then x :: y :: l' else y :: insert_by_key x l'
  end.

Fixpoint sort_by_key (l : list (Z * A)) : list (Z * A) :=
  match l with
  | [] => []
  | x :: l' => insert_by_key x (sort_by_key l')
  end.

Fixpoint decorate (key : A -> outcome Z) (l : list A) : outcome (list (Z * A)) :=
  match l with
  | [] => Ok []
  | x :: l' =>
      obind (key x) (fun k =>
      obind (decorate key l') (fun r => Ok ((k, x) :: r)))
  end.

Definition sorted (key : A -> outcome Z) (l : list A) : outcome (list A) :=
  obind (decorate key l) (fun d => Ok (map snd (sort_by_key d))).
End Sorted.

Section Fetch.
Variable srv : server.

Definition fetch_traders_by_category (category : string) (limit : Z) : M json :=
  try_except
    (response <- requests_post srv (category_request category limit);;
     raise_for_status response;;
     data <- response_json response;;
     lift (py_get data "data" (JArr [])))
    (fun e =>
       print [Lit "  Error: "; FErr e];;
       ret (JArr [])).

(** One round of [for category in CATEGORIES]. *)
Definition fetch_category (category : string) (categorized : snapshot) : M snapshot :=
  print_end [Lit "Fetching ["; Lit category; Lit "]..."] " ";;
  traders <- fetch_traders_by_category category 100;;
  let categorized := str_set category traders categorized in
  n <- lift (py_len traders);;
  print [FInt n; Lit " traders"];;
  ret categorized.

Definition fetch_all : M snapshot := for_each CATEGORIES fetch_category [].
End Fetch.

(** One round of the summary loop over the ranked items. *)
Definition print_category (item : string * json) : M unit :=
  let '(category, traders) := item in
  if truthy traders then
    top <- lift (getitem0 traders);;
    n <- lift (py_len traders);;
    print [Lit nl; Lit category; Lit ": "; FInt n; Lit " traders"];;
    name <- lift (getitem top "trader_name");;
    gain <- lift (getitem top "overall_gain");;
    pnl <- lift (format_fixed2 gain);;
    rate <- lift (getitem top "win_rate");;
    wr <- lift (format_percent1 rate);;
    print [Lit "  Top: "; FStr name; Lit " | PnL: $"; pnl; Lit " | WR: "; wr;
           Lit "%"]
  else ret tt.

Definition by_count (item : string * json) : outcome Z :=
  obind (py_len (snd item)) (fun n => Ok (- n)).

Definition print_summary (categorized : snapshot) : M unit :=
  ranked <- lift (sorted by_count categorized);;
  for_each ranked (fun item _ => print_category item) tt.

(** The body of [for t in traders] in the lookup loop. *)
Definition add_trader (category : string) (t : json) (tc : index) : outcome index :=
  obind (getitem t "trader") (fun addr =>
  obind (hash_key addr) (fun _ =>
  obind (if negb (dict_mem same_key addr tc)
         then obind (getitem t "trader_name") (fun name =>
              Ok (index_set addr (Entry name []) tc))
         else Ok tc) (fun tc =>
  obind (getitem t "overall_gain") (fun pnl =>
  obind (getitem t "win_rate") (fun win_rate =>
  obind (getitem t "total_positions") (fun positions =>
  obind (py_get t "rank" JNull) (fun rank =>
  let stats := JObj [ ("pnl", pnl); ("win_rate", win_rate);
                      ("positions", positions); ("rank", rank) ] in
  match index_lookup addr tc with
  | Some e =>
      Ok (index_set addr
            (Entry (trader_name e) (str_set category stats (categories e))) tc)
  | None => Raise (KeyError addr)
  end))))))).

Fixpoint add_traders (category : string) (ts : list json) (tc : index) : outcome index :=
  match ts with
  | [] => Ok tc
  | t :: ts' => obind (add_trader category t tc) (add_traders category ts')
  end.

(** [for category, traders in categorized.items(): for t in traders: ...] *)
Fixpoint add_categories (items : snapshot) (tc : index) : outcome index :=
  match items with
  | [] => Ok tc
  | (category, traders) :: items' =>
      obind (py_iter traders) (fun ts =>
      obind (add_traders category ts tc) (add_categories items'))
  end.

Definition build_lookup (categorized : snapshot) : outcome index :=
  add_categories categorized [].

Definition snapshot_name : string := "traders-by-category.json".
Definition lookup_name : string := "traders-category-lookup.json".

Section Main.
Context `{JsonText}.
Variable srv : server.

Definition entry_json (e : entry) : json :=
  JObj [("trader_name", trader_name e); ("categories", JObj (categories e))].

(** The lookup as [json.dump] writes it: keys by their text. *)
Definition index_json (tc : index) : json :=
  JObj (map (fun kv => (key_text (fst kv), entry_json (snd kv))) tc).

Definition main : M unit :=
  print [Lit "Categorizing traders by market category (Top 100 per category)"];;
  print [Lit (rep "=" 60)];;
  categorized <- fetch_all srv;;
  write_file snapshot_name (dump 0 (JObj categorized));;
  print [Lit (nl +:+ rep "=" 60)];;
  print [Lit "SUMMARY"];;
  print [Lit (rep "=" 60)];;
  print_summary categorized;;
  print [Lit (nl +:+ "Saved to: "); FPath snapshot_name];;
  trader_categories <- lift (build_lookup categorized);;
  write_file lookup_name (dump 0 (index_json trader_categories));;
  print [Lit "Lookup saved to: "; FPath lookup_name];;
  print [Lit "Unique traders across categories: ";
         FInt (Z.of_nat (length trader_categories))].
End Main.

End Categorizer.

(* ===================================================================== *)
(** ** Vocabulary of the statements                                       *)
(* ===================================================================== *)

Module Vocabulary.
Import Py Sys.

(** The [RequestException] a response makes a script see, if any: raised by
    [requests.post], by [raise_for_status] or by [response.json()]. *)
Definition error_of (r : response) : option request_error :=
  match r with
  | NoResponse e => Some (Transport e)
  | Response status _ =>
      if (400 <=? status) && (status <? 600) then Some (HTTPError status)
      else None
  | Undecodable status =>
      if (400 <=? status) && (status <? 600) then Some (HTTPError status)
      else Some InvalidJSON
  end.

(** The records of a page: the response passes [raise_for_status], its
    payload is an object, and [data] is an array (or is absent). *)
Definition records_of (r : response) : option (list json) :=
  match error_of r, r with
  | None, Response _ (JObj d) =>
      match str_lookup "data" d with
      | Some (JArr l) => Some l
      | None => Some []
      | _ => None
      end
  | _, _ => None
  end.

(** A page after which the crawl goes on. *)
Definition full_page (page_size : Z) (recs : list json) : Prop :=
  recs <> [] /\ page_size <= Z.of_nat (length recs).

(** Page numbers [first, first + 1, ...], [n] of them. *)
Fixpoint page_numbers (first : Z) (n : nat) : list Z :=
  match n with
  | O => []
  | S n' => first :: page_numbers (first + 1) n'
  end.

Definition page_line (page : Z) (recs all_traders : list json) : list frag :=
  [Lit "Page "; FInt page; Lit ": "; FInt (Z.of_nat (length recs));
   Lit " traders (Total: "; FInt (Z.of_nat (length all_traders)); Lit ")"; Lit nl].

Definition error_line (page : Z) (e : request_error) : list frag :=
  [Lit "Error on page "; FInt page; Lit ": "; FErr e; Lit nl].

(** Effects that leave the files alone. *)
Definition keeps_files {A} (m : M A) : Prop :=
  forall w, files (snd (m w)) = files w.

(** The files after a sequence of writes, oldest first. *)
Definition apply_writes (f : list (string * string)) (fs : gmap string string)
  : gmap string string :=
  foldl (fun acc kv => <[fst kv := snd kv]> acc) fs f.

(** Effects whose result and writes do not depend on the world they start
    in. *)
Definition uniform {A} (m : M A) : Prop :=
  exists (r : outcome A) (f : list (string * string)),
    forall w, fst (m w) = r /\ files (snd (m w)) = apply_writes f (files w).

(** A field of the JSON body of a request. *)
Definition field (r : request) (k : string) : option json :=
  match body r with
  | JObj d => str_lookup k d
  | _ => None
  end.

(** What a category's response leaves in the snapshot when the fetch does
    not raise: the empty list after a caught error, else the payload's
    [data] (the empty list when the key is absent). *)
Definition data_of (r : response) : option json :=
  match error_of r, r with
  | Some _, _ => Some (JArr [])
  | None, Response _ (JObj d) =>
      Some (match str_lookup "data" d with Some x => x | None => JArr [] end)
  | None, _ => None
  end.

Definition sized (v : json) : bool :=
  match py_len v with Ok _ => true | Raise _ => false end.

(** A response that the loop over the categories gets past. *)
Definition answers (r : response) : Prop :=
  exists v, data_of r = Some v /\ sized v = true.

(** The snapshot entry of a category, read off its response. *)
Definition stored (srv : server) (category : string) : json :=
  match data_of (srv (Categorizer.category_request category 100)) with
  | Some v => v
  | None => JArr []
  end.

(** *** The summary *)

(** The two lines printed for a category. *)
Definition summary_block (category : string) (count : Z) (name : json)
                         (pnl wr : frag) : list frag :=
  [Lit nl; Lit category; Lit ": "; FInt count; Lit " traders"; Lit nl;
   Lit "  Top: "; FStr name; Lit " | PnL: $"; pnl; Lit " | WR: "; wr;
   Lit "%"; Lit nl].

(** What the summary prints for an item whose value is a list of traders:
    nothing for the empty list, else the count and the first trader's name,
    gain and win rate; [None] when the first trader cannot be printed. *)
Definition block_of (item : string * json) : option (list frag) :=
  match snd item with
  | JArr [] => Some []
  | JArr (top :: rest) =>
      match getitem top "trader_name",
            obind (getitem top "overall_gain") format_fixed2,
            obind (getitem top "win_rate") format_percent1 with
      | Ok name, Ok pnl, Ok wr =>
          Some (summary_block (fst item) (Z.of_nat (length (top :: rest)))
                              name pnl wr)
      | _, _, _ => None
      end
  | _ => None
  end.

(** [b] is the block of a category with at least one trader: its count and
    its top trader's name, PnL and win rate. *)
Definition block_for (item : string * json) (b : list frag) : Prop :=
  exists top rest name gain rate pnl wr,
    snd item = JArr (top :: rest) /\
    getitem top "trader_name" = Ok name /\
    getitem top "overall_gain" = Ok gain /\ format_fixed2 gain = Ok pnl /\
    getitem top "win_rate" = Ok rate /\ format_percent1 rate = Ok wr /\
    b = summary_block (fst item) (Z.of_nat (length (top :: rest))) name pnl wr.

(** The trader count of an item. *)
Definition count (item : string * json) : Z :=
  match py_len (snd item) with Ok n => n | Raise _ => 0 end.

Definition has_traders (item : string * json) : bool := truthy (snd item).

(** Whether a category name is printed as such. *)
Definition mentions (out : list frag) (category : string) : bool :=
  existsb (fun fr => match fr with Lit s => String.eqb s category | _ => false end)
          out.

(** The summary has a block for every category of the snapshot. *)
Definition summary_covers (categorized : Categorizer.snapshot) (out : list frag) : Prop :=
  forall item, item ∈ categorized -> mentions out (fst item) = true.

(** *** The lookup *)

(** The dict key of a record's address, when it has one. *)
Definition address_of (t : json) : option pykey :=
  match getitem t "trader" with
  | Ok a => match hash_key a with Ok k => Some k | Raise _ => None end
  | Raise _ => None
  end.

(** Record [t] is in the list of category [c]. *)
Definition listed (categorized : Categorizer.snapshot) (c : string) (t : json) : Prop :=
  exists v ts, (c, v) ∈ categorized /\ py_iter v = Ok ts /\ t ∈ ts.

Definition hashes_to (a : json) (k : pykey) : bool :=
  match hash_key a with
  | Ok k' => bool_decide (k' = k)
  | Raise _ => false
  end.

(** The keys of the index, as the dict compares them. *)
Definition index_keys (tc : Categorizer.index) : list (outcome pykey) :=
  map (fun kv => hash_key (fst kv)) tc.

(** The entry stored under a key. *)
Fixpoint entry_at (k : pykey) (tc : Categorizer.index) : option Categorizer.entry :=
  match tc with
  | [] => None
  | (a, e) :: tc' => if hashes_to a k then Some e else entry_at k tc'
  end.

Definition has_key (t : json) (k : string) : bool :=
  match getitem t k with Ok _ => true | Raise _ => false end.

Definition expected_keys : list string :=
  ["trader"; "trader_name"; "overall_gain"; "win_rate"; "total_positions"].

(** A TraderRecord: an object with the expected keys and a hashable
    address. *)
Definition is_record (t : json) : bool :=
  forallb (has_key t) expected_keys &&
  match address_of t with Some _ => true | None => false end.

(** A CategorySnapshot: every category holds a list of TraderRecords. *)
Definition well_formed (categorized : Categorizer.snapshot) : bool :=
  forallb (fun item => match snd item with
                       | JArr l => forallb is_record l
                       | _ => false
                       end) categorized.

(** The (category, record) pairs of a snapshot in the order the lookup loop
    visits them. *)
Definition visits (categorized : Categorizer.snapshot) : list (string * json) :=
  flat_map (fun item => match py_iter (snd item) with
                        | Ok ts => map (pair (fst item)) ts
                        | Raise _ => []
                        end) categorized.

(** [name] is the [trader_name] of the first visited record whose address
    has key [k]. *)
Definition first_seen (ps : list (string * json)) (k : pykey) (name : json) : Prop :=
  exists ps1 c t ps2,
    ps = ps1 ++ (c, t) :: ps2 /\
    (forall p, p ∈ ps1 -> address_of (snd p) <> Some k) /\
    address_of t = Some k /\
    getitem t "trader_name" = Ok name.

(** The invariant of the lookup loop: the index [tc] after the visits
    [ps]. *)
Record lookup_inv (ps : list (string * json)) (tc : Categorizer.index) : Prop := {
  inv_hashable : forall x, x ∈ index_keys tc -> exists k, x = Ok k;
  inv_distinct : NoDup (index_keys tc);
  inv_present : forall k,
    is_Some (entry_at k tc) <-> exists c t, (c, t) ∈ ps /\ address_of t = Some k;
  inv_categories : forall k e,
    entry_at k tc = Some e ->
    NoDup (map fst (Categorizer.categories e)) /\
    forall c, c ∈ map fst (Categorizer.categories e) <->
              exists t, (c, t) ∈ ps /\ address_of t = Some k;
  inv_name : forall k e,
    entry_at k tc = Some e -> first_seen ps k (Categorizer.trader_name e)
}.

(** *** Further vocabulary *)

(** A record that the top-five listing of the crawler can print. *)
Definition printable (t : json) : bool :=
  match getitem t "trader_name",
        obind (getitem t "trader") slice10,
        obind (getitem t "overall_gain") format_fixed2,
        obind (getitem t "win_rate") format_percent1,
        getitem t "total_positions" with
  | Ok _, Ok _, Ok _, Ok _, Ok _ => true
  | _, _, _, _, _ => false
  end.

(** Effects that send nothing and do not sleep. *)
Definition silent {A} (m : M A) : Prop :=
  forall w, sent (snd (m w)) = sent w /\ naps (snd (m w)) = naps w.

(** The dict stored under a category in a trader's sub-map, read off a
    record. *)
Definition record_stats (t : json) : option json :=
  match getitem t "overall_gain", getitem t "win_rate",
        getitem t "total_positions", py_get t "rank" JNull with
  | Ok pnl, Ok win_rate, Ok positions, Ok rank =>
      Some (JObj [ ("pnl", pnl); ("win_rate", win_rate);
                   ("positions", positions); ("rank", rank) ])
  | _, _, _, _ => None
  end.

(** The statistics of the last visited record of category [c] whose
    address has key [k]. *)
Definition stored_stats (ps : list (string * json)) (c : string) (k : pykey)
  : option json :=
  match last (filter (fun p => fst p = c /\ address_of (snd p) = Some k) ps) with
  | Some p => record_stats (snd p)
  | None => None
  end.

(** The address keys of the visited records, in visiting order. *)
Definition addresses (ps : list (string * json)) : list pykey :=
  omap (fun p => address_of (snd p)) ps.

(** A list without its repetitions, each element at its first place. *)
Definition first_occurrences {A} `{EqDecision A} (l : list A) : list A :=
  reverse (remove_dups (reverse l)).

(** The key under which [sorted] files an item ([0] when the key function
    raises, which ends [sorted]). *)
Definition key_value {A} (key : A -> outcome Z) (x : A) : Z :=
  match key x with Ok z => z | Raise _ => 0 end.

End Vocabulary.

(* ===================================================================== *)
(** ** Sample servers and records                                         *)
(* ===================================================================== *)

Module Samples.
Import Py Sys.

Definition quote : string := String (ascii_of_nat 34) EmptyString.

(** A stand-in for the interpreter's text of floats and strings. *)
Definition plain_text : JsonText :=
  {| float_repr := fun _ => "0.75";
     encode_basestring := fun s => quote +:+ s +:+ quote |}.

Definition three_quarters : json := JNum (NFloat (S754_finite false 3 (-2))).

Definition trader (addr name : string) (gain : Z) : json :=
  JObj [ ("trader", JStr addr);
         ("trader_name", JStr name);
         ("overall_gain", JNum (NInt gain));
         ("win_rate", three_quarters);
         ("total_positions", JNum (NInt 40));
         ("rank", JNum (NInt 1)) ].

Definition page_of (recs : list json) : response :=
  Response 200 (JObj [("data", JArr recs)]).

Definition requested_page (r : request) : Z :=
  match getitem (body r) "page" with
  | Ok (JNum (NInt p)) => p
  | _ => 0
  end.

Definition requested_tag (r : request) : string :=
  match getitem (body r) "tag" with
  | Ok (JStr s) => s
  | _ => EmptyString
  end.

(** Serves the given pages in order and then what [after] says. *)
Definition paged (pages : list (list json)) (after : response) : server :=
  fun r =>
    match pages !! Z.to_nat (requested_page r - 1) with
    | Some recs => page_of recs
    | None => after
    end.

Definition alice : json := trader "0xa11ce" "alice" 900.
Definition bob : json := trader "0xb0b" "bob" 500.
Definition carol : json := trader "0xca401" "carol" 100.

(** Two pages of 100 and a page of 47. *)
Definition two_full_and_a_partial : list (list json) :=
  [replicate 100 alice; replicate 100 bob].

Definition partial_page : list json := replicate 47 carol.

Definition down : server := fun _ => NoResponse ConnectionError.

Definition start : world := World [] 0 [] ∅.

(** Sports and Crypto answer, Politics fails, the rest have no trader. *)
Definition politics_down : server :=
  fun r =>
    let tag := requested_tag r in
    if String.eqb tag "Sports" then page_of [alice; bob]
    else if String.eqb tag "Politics" then NoResponse ConnectionError
    else if String.eqb tag "Crypto" then page_of [carol]
    else page_of [].

Definition timing_out : server := fun _ => NoResponse Timeout.

(** A record with one key taken out. *)
Definition without (k : string) (t : json) : json :=
  match t with
  | JObj d => JObj (List.filter (fun kv => negb (String.eqb (fst kv) k)) d)
  | _ => t
  end.

(** Answers every request with the same records. *)
Definition serving (recs : list json) : server := fun _ => page_of recs.

(** Like [politics_down] on the categories, but not on the crawler's tag. *)
Definition politics_down_elsewhere : server :=
  fun r =>
    if String.eqb (requested_tag r) "Overall" then NoResponse Timeout
    else politics_down r.

(** A snapshot in which one trader is listed twice, under two names. *)
Definition sample_snapshot : Categorizer.snapshot :=
  [ ("Sports", JArr [alice; bob]);
    ("Politics", JArr []);
    ("Crypto", JArr [trader "0xa11ce" "alice.eth" 50; carol]) ].

Definition sample_index : Categorizer.index :=
  Eval vm_compute in
    match Categorizer.build_lookup sample_snapshot with
    | Ok tc => tc
    | Raise _ => []
    end.

Definition sample_entry : Categorizer.entry :=
  Eval vm_compute in
    match sample_index with
    | (_, e) :: _ => e
    | [] => Categorizer.Entry JNull []
    end.

(** A payload that is a list, not an object. *)
Definition bare_list : response := Response 200 (JArr [alice]).

(** The first page is an object whose [data] is null. *)
Definition null_data : server :=
  fun _ => Response 200 (JObj [("data", JNull)]).

(** Six records; the sixth has no name. *)
Definition six_traders : list json :=
  [alice; bob; carol; alice; bob; without "trader_name" carol].

(** Sports and Crypto tie with two traders each. *)
Definition tied_snapshot : Categorizer.snapshot :=
  [ ("Sports", JArr [alice; bob]);
    ("Politics", JArr [carol]);
    ("Crypto", JArr [bob; carol]) ].

(** One trader listed twice under Sports, with two gains. *)
Definition repeated_snapshot : Categorizer.snapshot :=
  [ ("Sports", JArr [alice; trader "0xa11ce" "alice" 7]) ].

Definition repeated_index : Categorizer.index :=
  Eval vm_compute in
    match Categorizer.build_lookup repeated_snapshot with
    | Ok tc => tc
    | Raise _ => []
    end.

Definition repeated_entry : Categorizer.entry :=
  Eval vm_compute in
    match repeated_index with
    | (_, e) :: _ => e
    | [] => Categorizer.Entry JNull []
    end.

(** Sports answers with a bare list. *)
Definition sports_malformed : server :=
  fun r =>
    if String.eqb (requested_tag r) "Sports" then bare_list
    else page_of [alice].

(** Politics is down and Crypto answers [{"data": null}]. *)
Definition politics_down_crypto_null : server :=
  fun r =>
    let tag := requested_tag r in
    if String.eqb tag "Sports" then page_of [alice; bob]
    else if String.eqb tag "Politics" then NoResponse ConnectionError
    else if String.eqb tag "Crypto" then Response 200 (JObj [("data", JNull)])
    else page_of [].

(** Sports answers 200 with a body that is not JSON. *)
Definition sports_not_json : server :=
  fun r =>
    if String.eqb (requested_tag r) "Sports" then Undecodable 200
    else page_of [alice].

End Samples.

(* ===================================================================== *)
(** ** Facts about the effects                                            *)
(* ===================================================================== *)

Module SysFacts.
Import Py Sys Vocabulary.

Lemma keeps_ret {A} (a : A) : keeps_files (ret a).
Proof. intros w; reflexivity. Qed.

Lemma keeps_lift {A} (o : outcome A) : keeps_files (lift o).
Proof. intros w; reflexivity. Qed.

Lemma keeps_bind {A B} (m : M A) (k : A -> M B) :
  keeps_files m -> (forall a, keeps_files (k a)) -> keeps_files (bind m k).
Proof.
  intros Hm Hk w. unfold bind. specialize (Hm w).
  destruct (m w) as [[a|e] w1]; simpl in *.
  - rewrite Hk. exact Hm.
  - exact Hm.
Qed.

Lemma keeps_try {A} (m : M A) (h : request_error -> M A) :
  keeps_files m -> (forall e, keeps_files (h e)) -> keeps_files (try_except m h).
Proof.
  intros Hm Hh w. unfold try_except. specialize (Hm w).
  destruct (m w) as [[a|[]] w1]; simpl in *; try exact Hm.
  rewrite Hh. exact Hm.
Qed.

Lemma keeps_print_end fs e : keeps_files (print_end fs e).
Proof. intros w; reflexivity. Qed.

Lemma keeps_print fs : keeps_files (print fs).
Proof. intros w; reflexivity. Qed.

Lemma keeps_sleep : keeps_files sleep.
Proof. intros w; reflexivity. Qed.

Lemma keeps_post srv r : keeps_files (requests_post srv r).
Proof. intros w. unfold requests_post. destruct (srv r); reflexivity. Qed.

Lemma keeps_raise_for_status resp : keeps_files (raise_for_status resp).
Proof.
  intros w. destruct resp as [e|status p|status]; simpl; [reflexivity| |];
    destruct ((400 <=? status) && (status <? 600)); reflexivity.
Qed.

Lemma keeps_response_json resp : keeps_files (response_json resp).
Proof. intros w. destruct resp; reflexivity. Qed.

Lemma keeps_for_each {A S} (l : list A) (body : A -> S -> M S) s :
  (forall x s', keeps_files (body x s')) -> keeps_files (for_each l body s).
Proof.
  intros Hb. revert s. induction l as [|x l IH]; intros s; simpl.
  - apply keeps_ret.
  - apply keeps_bind; [apply Hb | intros; apply IH].
Qed.

Create HintDb frame.

#[export] Hint Resolve keeps_ret keeps_lift keeps_print_end keeps_print
  keeps_sleep keeps_post keeps_raise_for_status keeps_response_json : frame.

(** Walks through a monadic term, splitting at each bind and branch. *)
Ltac frame :=
  repeat first
    [ apply keeps_bind; [| intros ]
    | apply keeps_try; [| intros ]
    | solve [ auto with frame ]
    | match goal with
      | |- keeps_files (if ?b then _ else _) => destruct b
      end ].

Lemma uniform_ret {A} (a : A) : uniform (ret a).
Proof. exists (Ok a), []. intros w. split; reflexivity. Qed.

Lemma uniform_lift {A} (o : outcome A) : uniform (lift o).
Proof. exists o, []. intros w. split; reflexivity. Qed.

Lemma uniform_bind {A B} (m : M A) (k : A -> M B) :
  uniform m -> (forall a, uniform (k a)) -> uniform (bind m k).
Proof.
  intros (r & f & Hm) Hk. destruct r as [a|e].
  - destruct (Hk a) as (r2 & f2 & Hka). exists r2, (f ++ f2).
    intros w. destruct (Hm w) as [Hr Hf]. unfold bind.
    destruct (m w) as [o w1]; simpl in *. subst o.
    destruct (Hka w1) as [Hr2 Hf2]. split; [exact Hr2|].
    rewrite Hf2, Hf. unfold apply_writes. rewrite foldl_app. reflexivity.
  - exists (Raise e), f. intros w. destruct (Hm w) as [Hr Hf]. unfold bind.
    destruct (m w) as [o w1]; simpl in *. subst o. split; [reflexivity|exact Hf].
Qed.

Lemma uniform_try {A} (m : M A) (h : request_error -> M A) :
  uniform m -> (forall e, uniform (h e)) -> uniform (try_except m h).
Proof.
  intros (r & f & Hm) Hh.
  assert (Hpass : (forall e, r <> Raise (RequestException e)) ->
                  uniform (try_except m h)).
  { intros Hr. exists r, f. intros w. destruct (Hm w) as [Hw Hf].
    unfold try_except. destruct (m w) as [o w1]; simpl in *. subst o.
    destruct r as [a|[]]; try (split; [reflexivity|exact Hf]).
    exfalso. eapply Hr. reflexivity. }
  destruct r as [a|[e| | | | | |]]; try (apply Hpass; discriminate).
  destruct (Hh e) as (r2 & f2 & He). exists r2, (f ++ f2).
  intros w. destruct (Hm w) as [Hw Hf]. unfold try_except.
  destruct (m w) as [o w1]; simpl in *. subst o.
  destruct (He w1) as [Hr2 Hf2]. split; [exact Hr2|].
  rewrite Hf2, Hf. unfold apply_writes. rewrite foldl_app. reflexivity.
Qed.

Lemma uniform_print_end fs e : uniform (print_end fs e).
Proof. exists (Ok tt), []. intros w. split; reflexivity. Qed.

Lemma uniform_print fs : uniform (print fs).
Proof. apply uniform_print_end. Qed.

Lemma uniform_sleep : uniform sleep.
Proof. exists (Ok tt), []. intros w. split; reflexivity. Qed.

Lemma uniform_write name text : uniform (write_file name text).
Proof. exists (Ok tt), [(name, text)]. intros w. split; reflexivity. Qed.

Lemma uniform_post srv r : uniform (requests_post srv r).
Proof.
  unfold requests_post. destruct (srv r) as [e|status p|status] eqn:Hr.
  - exists (Raise (RequestException (Transport e))), []. intros w. split; reflexivity.
  - exists (Ok (Response status p)), []. intros w. split; reflexivity.
  - exists (Ok (Undecodable status)), []. intros w. split; reflexivity.
Qed.

Lemma uniform_raise_for_status resp : uniform (raise_for_status resp).
Proof.
  destruct resp as [e|status p|status]; simpl; [apply uniform_lift| |];
    destruct ((400 <=? status) && (status <? 600));
    first [apply uniform_lift | apply uniform_ret].
Qed.

Lemma uniform_response_json resp : uniform (response_json resp).
Proof. destruct resp; simpl; first [apply uniform_lift | apply uniform_ret]. Qed.

Lemma uniform_for_each {A S} (l : list A) (body : A -> S -> M S) s :
  (forall x s', uniform (body x s')) -> uniform (for_each l body s).
Proof.
  intros Hb. revert s. induction l as [|x l IH]; intros s; simpl.
  - apply uniform_ret.
  - apply uniform_bind; [apply Hb | intros; apply IH].
Qed.

Create HintDb uniform.

#[export] Hint Resolve uniform_ret uniform_lift uniform_print_end uniform_print
  uniform_sleep uniform_write uniform_post uniform_raise_for_status
  uniform_response_json : uniform.

Ltac uniformity :=
  repeat first
    [ apply uniform_bind; [| intros ]
    | apply uniform_try; [| intros ]
    | apply uniform_for_each; intros
    | solve [ auto with uniform ]
    | match goal with
      | |- uniform (if ?b then _ else _) => destruct b
      | |- uniform (let '(_, _) := ?p in _) => destruct p
      end ].

(** A write seen from the empty directory is seen from every directory. *)
Lemma apply_writes_lookup f name text :
  apply_writes f ∅ !! name = Some text ->
  forall fs, apply_writes f fs !! name = Some text.
Proof.
  induction f as [|[k v] f IH] using rev_ind;
    [unfold apply_writes; simpl; rewrite lookup_empty; discriminate|].
  unfold apply_writes in *. intros Hl fs. rewrite foldl_app in Hl |- *.
  simpl in Hl |- *. destruct (decide (k = name)) as [->|Hne].
  - rewrite lookup_insert_eq in Hl. rewrite lookup_insert_eq. exact Hl.
  - rewrite lookup_insert_ne in Hl by exact Hne.
    rewrite lookup_insert_ne by exact Hne. apply IH. exact Hl.
Qed.

Lemma for_each_ext {A S} (l : list A) (body1 body2 : A -> S -> M S) :
  (forall x, x ∈ l -> forall s w, body1 x s w = body2 x s w) ->
  forall s w, for_each l body1 s w = for_each l body2 s w.
Proof.
  induction l as [|x l IH]; intros Hb s w; [reflexivity|].
  simpl. unfold bind. rewrite Hb by left.
  destruct (body2 x s w) as [[s'|e] w1]; [|reflexivity].
  apply IH. intros y Hy. apply Hb. right. exact Hy.
Qed.

Lemma bind_ok {A B} (m : M A) (k : A -> M B) w b w' :
  bind m k w = (Ok b, w') ->
  exists a w1, m w = (Ok a, w1) /\ k a w1 = (Ok b, w').
Proof.
  unfold bind. destruct (m w) as [[a|e] w1]; [|discriminate].
  intros Hk. exists a, w1. split; [reflexivity|exact Hk].
Qed.

Lemma bind_ext_l {A B} (m1 m2 : M A) (k : A -> M B) :
  (forall w, m1 w = m2 w) -> forall w, bind m1 k w = bind m2 k w.
Proof. intros Hm w. unfold bind. rewrite Hm. reflexivity. Qed.

Lemma bind_ext_r {A B} (m : M A) (k1 k2 : A -> M B) :
  (forall a w, k1 a w = k2 a w) -> forall w, bind m k1 w = bind m k2 w.
Proof.
  intros Hk w. unfold bind. destruct (m w) as [[a|e] w1]; [apply Hk|reflexivity].
Qed.

Lemma keeps_files_run {A} (m : M A) w r w' :
  keeps_files m -> m w = (r, w') -> files w' = files w.
Proof. intros Hk Hm. specialize (Hk w). rewrite Hm in Hk. exact Hk. Qed.

Lemma write_file_run name text w r w' :
  write_file name text w = (r, w') -> files w' = <[name := text]> (files w).
Proof. intros Hw. injection Hw as _ <-. reflexivity. Qed.

Lemma error_of_records r e : error_of r = Some e -> records_of r = None.
Proof. intros He. unfold records_of. rewrite He. reflexivity. Qed.

End SysFacts.

(* ===================================================================== *)
(** ** The crawl loop                                                     *)
(* ===================================================================== *)

Module CrawlerFacts.
Import Py Sys Vocabulary SysFacts Crawler.

Section Loop.
Variable srv : server.
Variables min_win_rate min_positions page_size : Z.

Abbreviation req := (page_request min_win_rate min_positions page_size).
Abbreviation step := (crawl_step srv min_win_rate min_positions page_size).
Abbreviation loop := (crawl_loop srv min_win_rate min_positions page_size).

Lemma crawl_step_error page all w e :
  error_of (srv (req page)) = Some e ->
  step page all w =
    (Ok (Break, page, all),
     World (sent w ++ [req page]) (naps w)
           (stdout w ++ error_line page e) (files w)).
Proof.
  intros He. unfold crawl_step, try_except, bind, requests_post.
  destruct (srv (req page)) as [t|status p|status]; simpl in He.
  - injection He as <-. reflexivity.
  - simpl. destruct ((400 <=? status) && (status <? 600)); [|discriminate].
    injection He as <-. reflexivity.
  - simpl. destruct ((400 <=? status) && (status <? 600));
      injection He as <-; reflexivity.
Qed.

(** What a page that passes [raise_for_status] leads to, up to the test on
    [traders]. *)
Lemma records_of_inv r recs :
  records_of r = Some recs ->
  exists status d,
    r = Response status (JObj d) /\
    (400 <=? status) && (status <? 600) = false /\
    py_get (JObj d) "data" (JArr []) = Ok (JArr recs).
Proof.
  unfold records_of, error_of. destruct r as [t|status p|status];
    [discriminate| |destruct ((400 <=? status) && (status <? 600)); discriminate].
  destruct ((400 <=? status) && (status <? 600)) eqn:Hs; [discriminate|].
  destruct p as [| | | | |d]; try discriminate.
  intros Hd. exists status, d. split; [reflexivity|]. split; [exact Hs|].
  simpl. destruct (str_lookup "data" d) as [[| | | |l|]|]; try discriminate;
    injection Hd as <-; reflexivity.
Qed.

Lemma crawl_step_empty page all w :
  records_of (srv (req page)) = Some [] ->
  step page all w =
    (Ok (Break, page, all),
     World (sent w ++ [req page]) (naps w) (stdout w) (files w)).
Proof.
  intros Hr. apply records_of_inv in Hr as (status & d & Hs & Hok & Hd).
  unfold crawl_step, try_except, bind, requests_post. rewrite Hs. simpl.
  rewrite Hok. simpl in *.
  destruct (str_lookup "data" d) as [x|]; [injection Hd as ->|]; reflexivity.
Qed.

Lemma crawl_step_records page all w x recs :
  records_of (srv (req page)) = Some (x :: recs) ->
  step page all w =
    let all' := (all ++ x :: recs) in
    let w1 := World (sent w ++ [req page]) (naps w)
                    (stdout w ++ page_line page (x :: recs) all') (files w) in
    if Z.of_nat (length (x :: recs)) <? page_size
    then (Ok (Break, page, all'), w1)
    else (Ok (Next, page + 1, all'),
          World (sent w1) (S (naps w1)) (stdout w1) (files w1)).
Proof.
  intros Hr. apply records_of_inv in Hr as (status & d & Hs & Hok & Hd).
  unfold crawl_step, try_except, bind, requests_post. rewrite Hs. simpl.
  rewrite Hok. simpl in *.
  destruct (str_lookup "data" d) as [y|]; [|discriminate].
  injection Hd as ->. simpl.
  match goal with
  | |- context [?n <? page_size] => destruct (n <? page_size)
  end; reflexivity.
Qed.

Lemma crawl_step_full page all w recs :
  records_of (srv (req page)) = Some recs ->
  full_page page_size recs ->
  step page all w =
    (Ok (Next, page + 1, (all ++ recs)),
     World (sent w ++ [req page]) (S (naps w))
           (stdout w ++ page_line page recs (all ++ recs)) (files w)).
Proof.
  intros Hr [Hne Hlen]. destruct recs as [|x recs]; [contradiction|].
  rewrite (crawl_step_records _ _ _ _ _ Hr). cbv zeta.
  destruct (Z.of_nat (length (x :: recs)) <? page_size) eqn:Hlt; [lia|].
  reflexivity.
Qed.

Lemma crawl_step_short page all w recs :
  records_of (srv (req page)) = Some recs ->
  Z.of_nat (length recs) < page_size ->
  exists w',
    step page all w = (Ok (Break, page, (all ++ recs)), w') /\
    sent w' = (sent w ++ [req page]) /\ files w' = files w.
Proof.
  intros Hr Hlen. destruct recs as [|x recs].
  - rewrite (crawl_step_empty _ _ _ Hr), app_nil_r. eexists; split; eauto.
  - rewrite (crawl_step_records _ _ _ _ _ Hr). cbv zeta.
    destruct (Z.of_nat (length (x :: recs)) <? page_size) eqn:Hlt; [|lia].
    eexists; split; eauto.
Qed.

(** The loop runs through a stretch of full pages, one iteration each. *)
Lemma crawl_loop_full_pages (pages : list (list json)) :
  forall fuel page all w,
    (forall (i : nat) recs, pages !! i = Some recs ->
       records_of (srv (req (page + Z.of_nat i))) = Some recs /\
       full_page page_size recs) ->
    exists w',
      loop (length pages + fuel) page all w =
        loop fuel (page + Z.of_nat (length pages)) (all ++ concat pages) w' /\
      sent w' = (sent w ++ map req (page_numbers page (length pages))) /\
      files w' = files w.
Proof.
  induction pages as [|recs pages IH]; intros fuel page all w Hp.
  - exists w. simpl. rewrite Z.add_0_r, !app_nil_r. auto.
  - destruct (Hp 0%nat recs eq_refl) as [Hr Hfull].
    rewrite Z.add_0_r in Hr.
    edestruct (IH fuel (page + 1) (all ++ recs)) as (w' & Hrun & Hsent & Hfiles).
    { intros i r Hi. specialize (Hp (S i) r Hi).
      replace (page + 1 + Z.of_nat i) with (page + Z.of_nat (S i)) by lia.
      exact Hp. }
    exists w'. split; [|split].
    + change (length (recs :: pages) + fuel)%nat with (S (length pages + fuel)).
      cbn [crawl_loop]. rewrite (crawl_step_full _ _ _ _ Hr Hfull).
      rewrite Hrun. simpl concat. rewrite app_assoc.
      f_equal. simpl length. lia.
    + rewrite Hsent. simpl. rewrite <- app_assoc. reflexivity.
    + rewrite Hfiles. reflexivity.
Qed.

Lemma page_numbers_snoc first n :
  page_numbers first (S n) =
    (page_numbers first n ++ [first + Z.of_nat n]).
Proof.
  revert first. induction n as [|n IH]; intros first.
  - simpl. rewrite Z.add_0_r. reflexivity.
  - change (page_numbers first (S (S n)))
      with (first :: page_numbers (first + 1) (S n)).
    rewrite IH. simpl. do 3 f_equal. lia.
Qed.

Lemma keeps_crawl_step page all : keeps_files (step page all).
Proof. unfold crawl_step. frame. Qed.

Lemma crawl_loop_files fuel :
  forall page all w r w',
    loop fuel page all w = Some (r, w') -> files w' = files w.
Proof.
  induction fuel as [|fuel IH]; intros page all w r w' Hrun; [discriminate|].
  simpl in Hrun. pose proof (keeps_crawl_step page all w) as Hk.
  destruct (step page all w) as [[[[[] page'] all']|e] w1]; simpl in Hk.
  - injection Hrun as <- <-. exact Hk.
  - apply IH in Hrun. congruence.
  - injection Hrun as <- <-. exact Hk.
Qed.
End Loop.

Section Claims.
Variable srv : server.
Variables min_win_rate min_positions page_size : Z.

Abbreviation req := (page_request min_win_rate min_positions page_size).
Abbreviation loop := (crawl_loop srv min_win_rate min_positions page_size).
Abbreviation crawl := (crawl_traders srv min_win_rate min_positions page_size).

(** The two opening prints of [crawl_traders] touch only the output. *)
Lemma crawl_traders_unfold fuel w :
  exists w0,
    crawl fuel w = loop fuel 1 [] w0 /\
    sent w0 = sent w /\ files w0 = files w.
Proof. unfold crawl_traders. simpl. eexists; split; [reflexivity|]. auto. Qed.

Lemma crawl_loop_error page all w e fuel :
  error_of (srv (req page)) = Some e ->
  loop (S fuel) page all w =
    Some (Ok all,
          World (sent w ++ [req page]) (naps w)
                (stdout w ++ error_line page e) (files w)).
Proof. intros He. simpl. rewrite (crawl_step_error _ _ _ _ _ _ _ _ He). reflexivity. Qed.

(** C2.  When every page before page [k] holds exactly [page_size]
    records and page [k] holds fewer (possibly none), [crawl_traders]
    terminates, having requested pages 1 to [k] and nothing else, and
    returns the records of these pages in order; the length of the result
    is the sum of the pages' record counts.  Here [pages] are the pages
    before [k], [last] is page [k], and any fuel above [length pages] is
    enough. *)
Theorem crawl_stops_at_short_page
    (pages : list (list json)) (last : list json) (fuel : nat) (w : world) :
  (forall recs, recs ∈ pages -> Z.of_nat (length recs) = page_size) ->
  Z.of_nat (length last) < page_size ->
  (forall (i : nat) recs, (pages ++ [last]) !! i = Some recs ->
     records_of (srv (req (1 + Z.of_nat i))) = Some recs) ->
  (length pages < fuel)%nat ->
  exists w',
    crawl fuel w = Some (Ok (concat (pages ++ [last])), w') /\
    sent w' = (sent w ++ map req (page_numbers 1 (S (length pages)))) /\
    length (concat (pages ++ [last])) = sum_list (length <$> (pages ++ [last])).
Proof.
  intros Hfull Hlast Hsrv Hfuel.
  destruct (crawl_traders_unfold fuel w) as (w0 & -> & Hs0 & _).
  assert (Hpos : 0 < page_size) by lia.
  destruct (crawl_loop_full_pages srv min_win_rate min_positions page_size
              pages (fuel - length pages) 1 [] w0) as (w1 & Hrun & Hs1 & _).
  { intros i recs Hi. split.
    - apply Hsrv. apply lookup_app_l_Some. exact Hi.
    - assert (Hin : recs ∈ pages) by (apply list_elem_of_lookup; eauto).
      specialize (Hfull recs Hin). split; [|lia].
      intros ->. simpl in Hfull. lia. }
  replace (length pages + (fuel - length pages))%nat with fuel in Hrun by lia.
  rewrite Hrun. destruct (fuel - length pages)%nat as [|f] eqn:Hf; [lia|].
  assert (Hr : records_of (srv (req (1 + Z.of_nat (length pages)))) = Some last).
  { apply Hsrv. rewrite lookup_app_r by lia.
    replace (length pages - length pages)%nat with 0%nat by lia. reflexivity. }
  destruct (crawl_step_short srv min_win_rate min_positions page_size
              (1 + Z.of_nat (length pages)) ([] ++ concat pages) w1 last Hr Hlast)
    as (w2 & Hstep & Hs2 & _).
  exists w2. split; [|split].
  - cbn [crawl_loop]. rewrite Hstep. rewrite concat_app. simpl.
    rewrite app_nil_r. reflexivity.
  - rewrite Hs2, Hs1, Hs0, page_numbers_snoc, map_app, app_assoc. reflexivity.
  - apply length_concat.
Qed.

(** C3.  When the request for page [N] fails with a transport or
    HTTP-status error, the loop stops at once and returns the accumulator
    as it stands: from any loop state at page [N], and, from the start of
    [crawl_traders], the records of pages 1 to [N - 1] in the order
    received whenever those pages let the loop reach page [N].  Page [N]
    is the last request sent. *)
Theorem crawl_error_keeps_accumulated (N : Z) (e : request_error) :
  error_of (srv (req N)) = Some e ->
  (forall fuel all w,
     loop (S fuel) N all w =
       Some (Ok all,
             World (sent w ++ [req N]) (naps w)
                   (stdout w ++ error_line N e) (files w))) /\
  (forall (pages : list (list json)) fuel w,
     N = 1 + Z.of_nat (length pages) ->
     (forall (i : nat) recs, pages !! i = Some recs ->
        records_of (srv (req (1 + Z.of_nat i))) = Some recs /\
        full_page page_size recs) ->
     (length pages < fuel)%nat ->
     exists w',
       crawl fuel w = Some (Ok (concat pages), w') /\
       sent w' = (sent w ++ map req (page_numbers 1 (S (length pages))))).
Proof.
  intros He. split.
  - intros fuel all w. apply crawl_loop_error. exact He.
  - intros pages fuel w -> Hpages Hfuel.
    destruct (crawl_traders_unfold fuel w) as (w0 & -> & Hs0 & _).
    destruct (crawl_loop_full_pages srv min_win_rate min_positions page_size
                pages (fuel - length pages) 1 [] w0 Hpages) as (w1 & Hrun & Hs1 & _).
    replace (length pages + (fuel - length pages))%nat with fuel in Hrun by lia.
    rewrite Hrun. destruct (fuel - length pages)%nat as [|f] eqn:Hf; [lia|].
    rewrite (crawl_loop_error _ _ _ _ _ He). eexists. split; [reflexivity|].
    simpl sent. rewrite Hs1, Hs0, page_numbers_snoc, map_app, app_assoc.
    reflexivity.
Qed.

Lemma crawl_traders_files fuel w r w' :
  crawl fuel w = Some (r, w') -> files w' = files w.
Proof.
  destruct (crawl_traders_unfold fuel w) as (w0 & -> & _ & Hf0).
  intros Hrun. apply crawl_loop_files in Hrun. congruence.
Qed.
End Claims.

Section MainClaims.
Context `{JsonText}.
Variable srv : server.

(** C9.  When [crawl_traders] returns the empty list, [main] prints its
    message and returns; no file is created or written: the files after
    the run are the files before it. *)
Theorem main_without_traders_writes_nothing (fuel : nat) (w w1 : world) :
  crawl_traders srv 67 30 100 fuel w = Some (Ok [], w1) ->
  exists w2,
    main srv fuel w = Some (Ok tt, w2) /\
    files w2 = files w /\
    stdout w2 = (stdout w1 ++ [Lit "No traders found matching criteria."; Lit nl]) /\
    sent w2 = sent w1.
Proof.
  intros Hrun. unfold main. rewrite Hrun. simpl.
  eexists. split; [reflexivity|]. simpl.
  apply crawl_traders_files in Hrun. auto.
Qed.
End MainClaims.

Section Witnesses.
Import Samples.

(** Two pages of 100 and a page of 47: three requests, 247 records. *)
Lemma crawl_stops_at_short_page_witness :
  exists w',
    crawl_traders (paged (two_full_and_a_partial ++ [partial_page]) (page_of []))
      67 30 100 3 start
    = Some (Ok (concat (two_full_and_a_partial ++ [partial_page])), w') /\
    sent w' = sent start ++ map (page_request 67 30 100) [1; 2; 3] /\
    length (concat (two_full_and_a_partial ++ [partial_page])) =
      sum_list [100; 100; 47]%nat.
Proof.
  apply (crawl_stops_at_short_page
           (paged (two_full_and_a_partial ++ [partial_page]) (page_of []))
           67 30 100 two_full_and_a_partial partial_page 3 start).
  - intros recs Hin. unfold two_full_and_a_partial in Hin.
    apply elem_of_cons in Hin as [->|Hin]; [reflexivity|].
    apply elem_of_cons in Hin as [->|Hin]; [reflexivity|].
    inversion Hin.
  - vm_compute. reflexivity.
  - intros [|[|[|i]]] recs Hi; cbn in Hi; try discriminate;
      injection Hi as <-; vm_compute; reflexivity.
  - simpl. lia.
Defined.

(** Two full pages, then a 503 on page 3: the 200 records are returned. *)
Lemma crawl_error_keeps_accumulated_witness :
  exists w',
    crawl_traders (paged two_full_and_a_partial (Response 503 JNull))
      67 30 100 3 start
    = Some (Ok (concat two_full_and_a_partial), w') /\
    sent w' = sent start ++ map (page_request 67 30 100) [1; 2; 3].
Proof.
  destruct (crawl_error_keeps_accumulated
              (paged two_full_and_a_partial (Response 503 JNull))
              67 30 100 3 (HTTPError 503) eq_refl) as [_ Hstart].
  apply (Hstart two_full_and_a_partial 3%nat start eq_refl).
  - intros [|[|i]] recs Hi; cbn in Hi; try discriminate;
      injection Hi as <-; (split; [vm_compute; reflexivity|]);
      (split; [discriminate | vm_compute; discriminate]).
  - simpl. lia.
Defined.

(** The endpoint is down: one request, the message, no file. *)
Lemma main_without_traders_writes_nothing_witness :
  exists w2,
    main (H := plain_text) down 1 start = Some (Ok tt, w2) /\
    files w2 = files start.
Proof.
  destruct (main_without_traders_writes_nothing (H := plain_text)
              down 1 start _ eq_refl) as (w2 & Hmain & Hfiles & _).
  exists w2. split; assumption.
Defined.
End Witnesses.

End CrawlerFacts.

(* ===================================================================== *)
(** ** The category fetcher                                               *)
(* ===================================================================== *)

Module CategorizerFacts.
Import Py Sys Vocabulary SysFacts Categorizer.

(** *** String-keyed dicts *)

Lemma str_set_fresh {V} (k : string) (v : V) (d : list (string * V)) :
  k ∉ map fst d -> str_set k v d = d ++ [(k, v)].
Proof.
  induction d as [|[k' v'] d IH]; intros Hk; [reflexivity|].
  simpl in *. apply not_elem_of_cons in Hk as [Hne Hk].
  unfold str_set in *. simpl.
  destruct (String.eqb_spec k' k) as [->|_]; [contradiction|].
  rewrite IH by exact Hk. reflexivity.
Qed.

Lemma str_lookup_tabulate {V} (f : string -> V) (l : list string) (k : string) :
  k ∈ l -> str_lookup k (map (fun c => (c, f c)) l) = Some (f k).
Proof.
  induction l as [|c l IH]; intros Hk; [inversion Hk|].
  unfold str_lookup in *. simpl.
  destruct (String.eqb_spec c k) as [->|Hne]; [reflexivity|].
  apply IH. apply elem_of_cons in Hk as [->|Hk]; [contradiction|exact Hk].
Qed.

Lemma CATEGORIES_NoDup : NoDup CATEGORIES.
Proof. apply (bool_decide_unpack _). vm_compute. reflexivity. Qed.

(** *** [sorted] *)

Section Sorting.
Context {A : Type}.

Abbreviation by_key := (fun a b : Z * A => fst a <= fst b).

Lemma insert_by_key_perm (x : Z * A) l : Permutation (insert_by_key x l) (x :: l).
Proof.
  induction l as [|y l IH]; simpl; [reflexivity|].
  destruct (fst x <=? fst y); [reflexivity|].
  rewrite IH. apply perm_swap.
Qed.

Lemma sort_by_key_perm (l : list (Z * A)) : Permutation (sort_by_key l) l.
Proof.
  induction l as [|x l IH]; simpl; [reflexivity|].
  rewrite insert_by_key_perm, IH. reflexivity.
Qed.

Lemma insert_by_key_sorted (x : Z * A) l :
  StronglySorted by_key l -> StronglySorted by_key (insert_by_key x l).
Proof.
  induction 1 as [|y l Hs IH Hy]; simpl.
  - constructor; constructor.
  - destruct (fst x <=? fst y) eqn:Hxy.
    + constructor; [constructor; assumption|].
      constructor; [lia|].
      eapply Forall_impl; [exact Hy|]. simpl. intros z Hz. lia.
    + constructor; [exact IH|].
      apply (Permutation_Forall (x := x :: l)).
      * symmetry. apply insert_by_key_perm.
      * constructor; [lia|exact Hy].
Qed.

Lemma sort_by_key_sorted (l : list (Z * A)) : StronglySorted by_key (sort_by_key l).
Proof.
  induction l as [|x l IH]; simpl; [constructor|].
  apply insert_by_key_sorted, IH.
Qed.

Lemma decorate_total (key : A -> outcome Z) (k : A -> Z) l :
  (forall x, x ∈ l -> key x = Ok (k x)) ->
  decorate key l = Ok (map (fun x => (k x, x)) l).
Proof.
  induction l as [|x l IH]; intros Hk; simpl; [reflexivity|].
  rewrite Hk by left. simpl. rewrite IH; [reflexivity|].
  intros y Hy. apply Hk. right. exact Hy.
Qed.

(** [sorted] with a key that never raises: a permutation, ascending in the
    key. *)
Lemma sorted_total (key : A -> outcome Z) (k : A -> Z) l :
  (forall x, x ∈ l -> key x = Ok (k x)) ->
  exists r,
    sorted key l = Ok r /\ Permutation r l /\
    StronglySorted (fun a b => k a <= k b) r.
Proof.
  intros Hk. unfold sorted. rewrite (decorate_total key k l Hk). simpl.
  set (d := map (fun x => (k x, x)) l).
  eexists. split; [reflexivity|]. split.
  - rewrite sort_by_key_perm. unfold d. rewrite map_map. simpl.
    rewrite map_id. reflexivity.
  - assert (Hd : Forall (fun p => fst p = k (snd p)) (sort_by_key d)).
    { apply (Permutation_Forall (x := d)).
      - symmetry. apply sort_by_key_perm.
      - unfold d. apply Forall_forall. intros p Hp.
        apply list_elem_of_fmap in Hp as (x & -> & _).
        reflexivity. }
    pose proof (sort_by_key_sorted d) as Hs. revert Hd.
    induction Hs as [|p q Hs IH Hp]; intros Hd; simpl; [constructor|].
    apply Forall_cons in Hd as [Hpk Hd]. constructor; [apply IH, Hd|].
    apply Forall_forall. intros y Hy.
    apply list_elem_of_fmap in Hy as (z & -> & Hz).
    rewrite Forall_forall in Hp, Hd.
    specialize (Hp z Hz). specialize (Hd z Hz). simpl in Hp. lia.
Qed.
End Sorting.

Section Fetching.
Variable srv : server.

Abbreviation fetch := (fetch_traders_by_category srv).

Lemma fetch_sent category limit w :
  sent (snd (fetch category limit w)) = sent w ++ [category_request category limit].
Proof.
  unfold fetch_traders_by_category, try_except, bind, requests_post.
  destruct (srv (category_request category limit)) as [e|status p|status];
    simpl; [reflexivity| |];
    (destruct ((400 <=? status) && (status <? 600)); simpl; [reflexivity|]).
  - destruct (py_get p "data" (JArr [])) as [v|[]]; reflexivity.
  - reflexivity.
Qed.

Lemma fetch_error category limit w e :
  error_of (srv (category_request category limit)) = Some e ->
  fetch category limit w =
    (Ok (JArr []),
     World (sent w ++ [category_request category limit]) (naps w)
           (stdout w ++ [Lit "  Error: "; FErr e; Lit nl]) (files w)).
Proof.
  intros He. unfold fetch_traders_by_category, try_except, bind, requests_post.
  destruct (srv (category_request category limit)) as [t|status p|status];
    simpl in *.
  - injection He as <-. reflexivity.
  - destruct ((400 <=? status) && (status <? 600)); [|discriminate].
    injection He as <-. reflexivity.
  - destruct ((400 <=? status) && (status <? 600));
      injection He as <-; reflexivity.
Qed.

Lemma fetch_data category limit w v :
  data_of (srv (category_request category limit)) = Some v ->
  exists w',
    fetch category limit w = (Ok v, w') /\
    sent w' = sent w ++ [category_request category limit] /\
    naps w' = naps w /\ files w' = files w.
Proof.
  intros Hd. unfold data_of in Hd.
  destruct (error_of (srv (category_request category limit))) as [e|] eqn:He.
  - injection Hd as <-. rewrite (fetch_error _ _ _ _ He). eexists; eauto.
  - unfold fetch_traders_by_category, try_except, bind, requests_post.
    unfold error_of in He.
    destruct (srv (category_request category limit)) as [t|status p|status];
      [discriminate|
      |destruct ((400 <=? status) && (status <? 600)); discriminate]. simpl.
    destruct ((400 <=? status) && (status <? 600)); [discriminate|]. simpl.
    destruct p as [| | | | |d]; try discriminate. simpl.
    destruct (str_lookup "data" d) as [x|]; injection Hd as <-;
      eexists; eauto.
Qed.

Lemma keeps_fetch category limit : keeps_files (fetch category limit).
Proof. unfold fetch_traders_by_category. frame. Qed.

Lemma keeps_fetch_category category categorized :
  keeps_files (fetch_category srv category categorized).
Proof.
  unfold fetch_category. frame; try apply keeps_fetch.
Qed.

Lemma uniform_fetch_category category categorized :
  uniform (fetch_category srv category categorized).
Proof. unfold fetch_category, fetch_traders_by_category. uniformity. Qed.

(** One round of the loop on a response that [answers]. *)
Lemma fetch_category_answers category categorized w v :
  data_of (srv (category_request category 100)) = Some v ->
  sized v = true ->
  exists w',
    fetch_category srv category categorized w =
      (Ok (str_set category v categorized), w') /\
    sent w' = sent w ++ [category_request category 100] /\
    files w' = files w.
Proof.
  intros Hd Hs. unfold fetch_category.
  unfold bind at 1. unfold print_end at 1. unfold bind at 1.
  edestruct (fetch_data category 100) as (w1 & -> & Hsent & _ & Hfiles);
    [exact Hd|].
  unfold sized in Hs. unfold bind, lift, print, print_end, ret.
  destruct (py_len v) as [n|]; [|discriminate].
  eexists. split; [reflexivity|]. simpl. split; [exact Hsent|exact Hfiles].
Qed.
Abbreviation req100 := (fun c => category_request c 100).

(** The loop over any list of categories whose responses all answer. *)
Lemma fetch_loop (l : list string) :
  forall categorized w,
    (forall c, c ∈ l -> answers (srv (req100 c))) ->
    exists w',
      for_each l (fetch_category srv) categorized w =
        (Ok (foldl (fun acc c => str_set c (stored srv c) acc) categorized l), w') /\
      sent w' = sent w ++ map req100 l /\
      files w' = files w.
Proof.
  induction l as [|c l IH]; intros categorized w Hl.
  - exists w. simpl. rewrite app_nil_r. auto.
  - destruct (Hl c) as (v & Hd & Hs); [left|].
    destruct (fetch_category_answers c categorized w v Hd Hs)
      as (w1 & Hstep & Hsent1 & Hfiles1).
    destruct (IH (str_set c v categorized) w1) as (w' & Hrun & Hsent & Hfiles).
    { intros c' Hc'. apply Hl. right. exact Hc'. }
    exists w'. split; [|split].
    + simpl. unfold bind. rewrite Hstep, Hrun. unfold stored. rewrite Hd.
      reflexivity.
    + rewrite Hsent, Hsent1. simpl. rewrite <- app_assoc. reflexivity.
    + congruence.
Qed.

Lemma tabulate_fresh (f : string -> json) (l : list string) :
  forall acc,
    NoDup l -> (forall c, c ∈ l -> c ∉ map fst acc) ->
    foldl (fun acc c => str_set c (f c) acc) acc l =
      acc ++ map (fun c => (c, f c)) l.
Proof.
  induction l as [|c l IH]; intros acc Hnd Hfresh; simpl.
  - rewrite app_nil_r. reflexivity.
  - apply NoDup_cons in Hnd as [Hc Hnd].
    rewrite str_set_fresh by (apply Hfresh; left).
    rewrite IH; [rewrite <- app_assoc; reflexivity | exact Hnd |].
    intros c' Hc'. rewrite map_app. simpl. intros Hin.
    apply elem_of_app in Hin as [Hin|Hin].
    + revert Hin. apply Hfresh. right. exact Hc'.
    + apply list_elem_of_singleton in Hin. subst c'. contradiction.
Qed.

(** The snapshot of a run in which every category answers. *)
Lemma fetch_all_answers w :
  (forall c, c ∈ CATEGORIES -> answers (srv (req100 c))) ->
  exists w',
    fetch_all srv w = (Ok (map (fun c => (c, stored srv c)) CATEGORIES), w') /\
    sent w' = sent w ++ map req100 CATEGORIES /\
    files w' = files w.
Proof.
  intros Hall. destruct (fetch_loop CATEGORIES [] w Hall) as (w' & Hrun & Hrest).
  exists w'. split; [|exact Hrest]. unfold fetch_all. rewrite Hrun.
  rewrite (tabulate_fresh (stored srv) CATEGORIES [] CATEGORIES_NoDup);
    [reflexivity|].
  intros c _ Hin. inversion Hin.
Qed.

Lemma fetch_category_sets category categorized w categorized' w' :
  fetch_category srv category categorized w = (Ok categorized', w') ->
  exists v, categorized' = str_set category v categorized.
Proof.
  unfold fetch_category. intros Hrun.
  apply bind_ok in Hrun as (? & w1 & _ & Hrun).
  apply bind_ok in Hrun as (v & w2 & _ & Hrun).
  apply bind_ok in Hrun as (n & w3 & _ & Hrun).
  apply bind_ok in Hrun as (? & w4 & _ & Hrun).
  injection Hrun as <- _. eauto.
Qed.

Lemma fetch_loop_keys (l : list string) :
  forall categorized w categorized' w',
    NoDup l -> (forall c, c ∈ l -> c ∉ map fst categorized) ->
    for_each l (fetch_category srv) categorized w = (Ok categorized', w') ->
    map fst categorized' = map fst categorized ++ l.
Proof.
  induction l as [|c l IH]; intros categorized w categorized' w' Hnd Hfresh Hrun.
  - injection Hrun as <- _. rewrite app_nil_r. reflexivity.
  - simpl in Hrun. apply bind_ok in Hrun as (acc & w1 & Hstep & Hrun).
    apply fetch_category_sets in Hstep as (v & ->).
    apply NoDup_cons in Hnd as [Hc Hnd].
    rewrite str_set_fresh in Hrun by (apply Hfresh; left).
    apply IH in Hrun; [|exact Hnd|].
    + rewrite Hrun, map_app, <- app_assoc. reflexivity.
    + intros c' Hc' Hin. rewrite map_app in Hin.
      apply elem_of_app in Hin as [Hin|Hin].
      * revert Hin. apply Hfresh. right. exact Hc'.
      * apply list_elem_of_singleton in Hin. subst c'. contradiction.
Qed.

(** The snapshot of a completed loop has the categories in list order. *)
Lemma fetch_all_keys w categorized w' :
  fetch_all srv w = (Ok categorized, w') -> map fst categorized = CATEGORIES.
Proof.
  intros Hrun.
  apply (fetch_loop_keys CATEGORIES [] w categorized w' CATEGORIES_NoDup) in Hrun;
    [exact Hrun|].
  intros c _ Hin. inversion Hin.
Qed.

(** C1, as the code has it.  When the request of a category fails with a
    transport or HTTP-status error, [fetch_traders_by_category] returns the
    empty list for it; and provided every other category answers (with a
    request error, or with a payload the loop can record), the loop of
    [main] still sends the request of every category and records every
    category: the failed one holds the empty list, and the entry of each
    category is read off that category's own response, so a failure
    elsewhere does not change it. *)
Theorem category_failure_is_isolated (c : string) (e : request_error) (w : world) :
  c ∈ CATEGORIES ->
  error_of (srv (req100 c)) = Some e ->
  (forall c', c' ∈ CATEGORIES -> c' <> c -> answers (srv (req100 c'))) ->
  fst (fetch_traders_by_category srv c 100 w) = Ok (JArr []) /\
  exists categorized w',
    fetch_all srv w = (Ok categorized, w') /\
    sent w' = sent w ++ map req100 CATEGORIES /\
    map fst categorized = CATEGORIES /\
    str_lookup c categorized = Some (JArr []) /\
    forall c', c' ∈ CATEGORIES ->
      str_lookup c' categorized = data_of (srv (req100 c')).
Proof.
  intros Hc He Hothers.
  assert (Hdc : data_of (srv (req100 c)) = Some (JArr [])).
  { unfold data_of. rewrite He. reflexivity. }
  assert (Hall : forall c', c' ∈ CATEGORIES -> answers (srv (req100 c'))).
  { intros c' Hc'. destruct (decide (c' = c)) as [->|Hne].
    - exists (JArr []). split; [exact Hdc|reflexivity].
    - apply Hothers; assumption. }
  split.
  - rewrite (fetch_error c 100 w e He). reflexivity.
  - destruct (fetch_all_answers w Hall) as (w' & Hrun & Hsent & _).
    eexists _, w'. split; [exact Hrun|]. split; [exact Hsent|].
    split; [|split].
    + rewrite map_map. reflexivity.
    + rewrite (str_lookup_tabulate (stored srv)) by exact Hc.
      unfold stored. rewrite Hdc. reflexivity.
    + intros c' Hc'. rewrite (str_lookup_tabulate (stored srv)) by exact Hc'.
      destruct (Hall c' Hc') as (v & Hd & _). unfold stored. rewrite Hd.
      reflexivity.
Qed.

(** C7.  For every category, [fetch_traders_by_category] sends exactly one
    request; its body asks for page 1 with [pageSize] equal to [limit] (100
    by default), sorted by [pnl] descending, and has no [minWinRate] or
    [minTotalPositions]; the request carries the deadline 30, and when the
    deadline passes (the call raises [Timeout]) the category gets the empty
    list like after any other request error. *)
Theorem fetch_sends_one_unfiltered_request (category : string) (limit : Z) (w : world) :
  let r := category_request category limit in
  sent (snd (fetch category limit w)) = sent w ++ [r] /\
  field r "tag" = Some (JStr category) /\
  field r "page" = Some (int 1) /\
  field r "pageSize" = Some (int limit) /\
  field r "sortBy" = Some (JStr "pnl") /\
  field r "sortDirection" = Some (JStr "desc") /\
  field r "minWinRate" = None /\
  field r "minTotalPositions" = None /\
  length (match body r with JObj d => d | _ => [] end) = 5%nat /\
  timeout r = 30 /\
  default_limit = 100 /\
  (srv r = NoResponse Timeout ->
   fetch category limit w =
     (Ok (JArr []),
      World (sent w ++ [r]) (naps w)
            (stdout w ++ [Lit "  Error: "; FErr (Transport Timeout); Lit nl])
            (files w))).
Proof.
  cbv zeta. split; [apply fetch_sent|].
  repeat (split; [reflexivity|]).
  intros Hr. apply fetch_error. rewrite Hr. reflexivity.
Qed.
End Fetching.

Section Determinism.
Context `{JsonText}.

Lemma fetch_category_agree (srv1 srv2 : server) (c : string) :
  srv1 (category_request c 100) = srv2 (category_request c 100) ->
  forall categorized w,
    fetch_category srv1 c categorized w = fetch_category srv2 c categorized w.
Proof.
  intros Hc categorized w.
  unfold fetch_category, fetch_traders_by_category, try_except, bind,
    requests_post, print_end. simpl. rewrite Hc. reflexivity.
Qed.

Lemma fetch_all_agree (srv1 srv2 : server) :
  (forall c, c ∈ CATEGORIES ->
     srv1 (category_request c 100) = srv2 (category_request c 100)) ->
  forall w, fetch_all srv1 w = fetch_all srv2 w.
Proof.
  intros Hagree w. unfold fetch_all. apply for_each_ext.
  intros c Hc s w1. apply fetch_category_agree, Hagree, Hc.
Qed.

Lemma main_agree (srv1 srv2 : server) :
  (forall c, c ∈ CATEGORIES ->
     srv1 (category_request c 100) = srv2 (category_request c 100)) ->
  forall w, main srv1 w = main srv2 w.
Proof.
  intros Hagree w. unfold main.
  apply bind_ext_r; intros _ w1. apply bind_ext_r; intros _ w2.
  apply bind_ext_l. apply fetch_all_agree, Hagree.
Qed.

Lemma keeps_print_category item : keeps_files (print_category item).
Proof. destruct item as [category traders]. unfold print_category. frame. Qed.

Lemma keeps_print_summary categorized : keeps_files (print_summary categorized).
Proof.
  unfold print_summary. frame. apply keeps_for_each.
  intros. apply keeps_print_category.
Qed.

Lemma keeps_fetch_all srv : keeps_files (fetch_all srv).
Proof.
  unfold fetch_all. apply keeps_for_each. intros. apply keeps_fetch_category.
Qed.

Lemma uniform_main srv : uniform (main srv).
Proof.
  unfold main, fetch_all, print_summary. uniformity;
    first [ apply uniform_fetch_category
          | unfold print_category; uniformity ].
Qed.

(** A completed run has written both files, the lookup last. *)
Lemma main_ok_files srv w :
  fst (main srv w) = Ok tt ->
  exists snapshot_text lookup_text,
    files (snd (main srv w)) =
      <[lookup_name := lookup_text]> (<[snapshot_name := snapshot_text]> (files w)).
Proof.
  destruct (main srv w) as [r w'] eqn:Hm. simpl. intros ->.
  unfold main in Hm.
  apply bind_ok in Hm as (? & w1 & H1 & Hm).
  apply bind_ok in Hm as (? & w2 & H2 & Hm).
  apply bind_ok in Hm as (categorized & w3 & H3 & Hm).
  apply bind_ok in Hm as (? & w4 & H4 & Hm).
  apply bind_ok in Hm as (? & w5 & H5 & Hm).
  apply bind_ok in Hm as (? & w6 & H6 & Hm).
  apply bind_ok in Hm as (? & w7 & H7 & Hm).
  apply bind_ok in Hm as (? & w8 & H8 & Hm).
  apply bind_ok in Hm as (? & w9 & H9 & Hm).
  apply bind_ok in Hm as (tc & w10 & H10 & Hm).
  apply bind_ok in Hm as (? & w11 & H11 & Hm).
  apply bind_ok in Hm as (? & w12 & H12 & Hm).
  exists (dump 0 (JObj categorized)), (dump 0 (index_json tc)).
  apply (keeps_files_run _ _ _ _ (keeps_print _)) in H1, H2, H5, H6, H7, H9, H12, Hm.
  apply (keeps_files_run _ _ _ _ (keeps_fetch_all srv)) in H3.
  apply (keeps_files_run _ _ _ _ (keeps_print_summary _)) in H8.
  apply (keeps_files_run _ _ _ _ (keeps_lift _)) in H10.
  apply write_file_run in H4, H11.
  rewrite Hm, H12, H11, H10, H9, H8, H7, H6, H5, H4, H3, H2, H1. reflexivity.
Qed.

(** C5.  Two runs of the category fetcher against servers that give the
    same response for every category produce the same files: from the same
    starting world the runs are equal altogether, and from any two starting
    worlds a completed run leaves, in both, the same text in
    [traders-by-category.json] and the same text in
    [traders-category-lookup.json]. *)
Theorem category_fetcher_is_deterministic (srv1 srv2 : server) :
  (forall c, c ∈ CATEGORIES ->
     srv1 (category_request c 100) = srv2 (category_request c 100)) ->
  (forall w, main srv1 w = main srv2 w) /\
  (forall w1 w2,
     fst (main srv1 w1) = Ok tt ->
     fst (main srv2 w2) = Ok tt /\
     exists snapshot_text lookup_text,
       files (snd (main srv1 w1)) !! snapshot_name = Some snapshot_text /\
       files (snd (main srv2 w2)) !! snapshot_name = Some snapshot_text /\
       files (snd (main srv1 w1)) !! lookup_name = Some lookup_text /\
       files (snd (main srv2 w2)) !! lookup_name = Some lookup_text).
Proof.
  intros Hagree. pose proof (main_agree srv1 srv2 Hagree) as Heq.
  split; [exact Heq|]. intros w1 w2 Hok.
  destruct (uniform_main srv1) as (r & f & Hu).
  assert (Hr : r = Ok tt) by (destruct (Hu w1) as [<- _]; exact Hok).
  subst r. rewrite <- Heq. split; [apply Hu|].
  set (w0 := World [] 0 [] ∅).
  destruct (main_ok_files srv1 w0) as (ts & tl & Hfiles); [apply Hu|].
  destruct (Hu w0) as [_ Hf0]. rewrite Hf0 in Hfiles. simpl in Hfiles.
  assert (Hs : apply_writes f ∅ !! snapshot_name = Some ts).
  { rewrite Hfiles. rewrite lookup_insert_ne by discriminate.
    apply lookup_insert_eq. }
  assert (Hl : apply_writes f ∅ !! lookup_name = Some tl).
  { rewrite Hfiles. apply lookup_insert_eq. }
  exists ts, tl.
  destruct (Hu w1) as [_ ->]. destruct (Hu w2) as [_ ->].
  repeat split; apply apply_writes_lookup; assumption.
Qed.
End Determinism.

Section Summary.

Lemma print_category_block item b w :
  block_of item = Some b ->
  exists w',
    print_category item w = (Ok tt, w') /\ stdout w' = stdout w ++ b.
Proof.
  destruct item as [category v]. unfold block_of, print_category. simpl.
  destruct v as [| | | |[|top rest]|]; try discriminate.
  - intros Hb. injection Hb as <-. exists w. rewrite app_nil_r. auto.
  - unfold bind, lift, print, print_end, ret. simpl.
    destruct (getitem top "trader_name") as [name|]; [|discriminate].
    destruct (getitem top "overall_gain") as [gain|]; [|discriminate]. simpl.
    destruct (format_fixed2 gain) as [pnl|]; [|discriminate].
    destruct (getitem top "win_rate") as [rate|]; [|discriminate]. simpl.
    destruct (format_percent1 rate) as [wr|]; [|discriminate].
    intros Hb. injection Hb as <-. eexists. split; [reflexivity|].
    simpl. rewrite <- app_assoc. reflexivity.
Qed.

Lemma block_of_cases item b :
  block_of item = Some b ->
  (has_traders item = false /\ b = []) \/
  (has_traders item = true /\ block_for item b).
Proof.
  destruct item as [category v]. unfold block_of, has_traders, block_for. simpl.
  destruct v as [| | | |[|top rest]|]; try discriminate.
  - intros Hb. injection Hb as <-. left. auto.
  - destruct (getitem top "trader_name") as [name|] eqn:Hn; [|discriminate].
    destruct (getitem top "overall_gain") as [gain|] eqn:Hg; [|discriminate].
    simpl.
    destruct (format_fixed2 gain) as [pnl|] eqn:Hp; [|discriminate].
    destruct (getitem top "win_rate") as [rate|] eqn:Hr; [|discriminate].
    simpl.
    destruct (format_percent1 rate) as [wr|] eqn:Hw; [|discriminate].
    intros Hb. injection Hb as <-. right. split; [reflexivity|].
    exists top, rest, name, gain, rate, pnl, wr. repeat split; assumption.
Qed.

Lemma block_of_count item :
  is_Some (block_of item) -> by_count item = Ok (- count item).
Proof.
  destruct item as [category v]. unfold block_of, by_count, count. simpl.
  intros [b Hb]. destruct v; try discriminate. reflexivity.
Qed.

(** The loop over the ranked items prints their blocks in order. *)
Lemma for_each_blocks (l : list (string * json)) :
  (forall item, item ∈ l -> is_Some (block_of item)) ->
  forall w,
    exists blocks w',
      for_each l (fun item _ => print_category item) tt w = (Ok tt, w') /\
      Forall2 (fun item b => block_of item = Some b) l blocks /\
      stdout w' = stdout w ++ concat blocks.
Proof.
  induction l as [|item l IH]; intros Hl w.
  - exists [], w. simpl. rewrite app_nil_r. repeat split. constructor.
  - destruct (Hl item) as [b Hb]; [left|].
    destruct (print_category_block item b w Hb) as (w1 & Hstep & Hout1).
    destruct (IH (fun x Hx => Hl x (list_elem_of_further _ _ _ Hx)) w1)
      as (blocks & w' & Hrun & Hall & Hout).
    exists (b :: blocks), w'. split; [|split].
    + simpl. unfold bind. rewrite Hstep. exact Hrun.
    + constructor; assumption.
    + rewrite Hout, Hout1. simpl. rewrite app_assoc. reflexivity.
Qed.

(** Empty categories contribute nothing; the others their block. *)
Lemma blocks_of_nonempty (l : list (string * json)) blocks :
  Forall2 (fun item b => block_of item = Some b) l blocks ->
  exists blocks',
    Forall2 block_for (filter (fun item => has_traders item = true) l) blocks' /\
    concat blocks' = concat blocks.
Proof.
  induction 1 as [|item b l blocks Hb _ (blocks' & Hall & Hcat)].
  - exists []. split; [constructor|reflexivity].
  - destruct (block_of_cases item b Hb) as [[Hno ->]|[Hyes Hfor]].
    + exists blocks'. rewrite filter_cons_False by congruence.
      split; [exact Hall|exact Hcat].
    + exists (b :: blocks'). rewrite filter_cons_True by exact Hyes.
      split; [constructor; assumption|]. simpl. rewrite Hcat. reflexivity.
Qed.

Lemma StronglySorted_filter {A} (R : A -> A -> Prop) (P : A -> Prop)
    `{forall x, Decision (P x)} (l : list A) :
  StronglySorted R l -> StronglySorted R (filter P l).
Proof.
  induction 1 as [|x l Hs IH Hx]; [constructor|].
  rewrite filter_cons. destruct (decide (P x)); [|exact IH].
  constructor; [exact IH|]. apply Forall_forall. intros y Hy.
  apply list_elem_of_filter in Hy as [_ Hy].
  rewrite Forall_forall in Hx. apply Hx, Hy.
Qed.

Lemma StronglySorted_weaken {A} (R R' : A -> A -> Prop) (l : list A) :
  (forall a b, R a b -> R' a b) -> StronglySorted R l -> StronglySorted R' l.
Proof.
  intros HR. induction 1 as [|x l Hs IH Hx]; constructor; [exact IH|].
  eapply Forall_impl; [exact Hx|]. intros y. apply HR.
Qed.

(** C6, as the code has it.  On a snapshot whose categories hold lists of
    traders (each first trader printable), the summary prints one block for
    every category that has at least one trader, and none for an empty
    category; a block gives the category's trader count and the first
    trader's name, PnL and win rate; the blocks come in descending order of
    trader count. *)
Theorem summary_ranks_categories_with_traders (categorized : snapshot) (w : world) :
  (forall item, item ∈ categorized -> is_Some (block_of item)) ->
  exists ranked blocks w',
    print_summary categorized w = (Ok tt, w') /\
    stdout w' = stdout w ++ concat blocks /\
    Forall2 block_for ranked blocks /\
    Permutation ranked (filter (fun item => has_traders item = true) categorized) /\
    StronglySorted (fun a b => count b <= count a) ranked.
Proof.
  intros Hall.
  destruct (sorted_total by_count (fun item => - count item) categorized)
    as (r & Hsorted & Hperm & Hs).
  { intros item Hitem. apply block_of_count, Hall, Hitem. }
  destruct (for_each_blocks r) with (w := w) as (blocks & w' & Hrun & Hblocks & Hout).
  { intros item Hitem. apply Hall. rewrite <- Hperm. exact Hitem. }
  destruct (blocks_of_nonempty r blocks Hblocks) as (blocks' & Hfor & Hcat).
  exists (filter (fun item => has_traders item = true) r), blocks', w'.
  split; [|split; [|split; [|split]]].
  - unfold print_summary, bind, lift. rewrite Hsorted. exact Hrun.
  - rewrite Hcat. exact Hout.
  - exact Hfor.
  - rewrite Hperm. reflexivity.
  - apply StronglySorted_filter.
    eapply StronglySorted_weaken; [|exact Hs]. simpl. intros a b Hab. lia.
Qed.
End Summary.

Section Index.

Lemma same_key_hashes a a' k :
  hash_key a = Ok k -> same_key a' a = hashes_to a' k.
Proof. intros Ha. unfold same_key, hashes_to. rewrite Ha. reflexivity. Qed.

Lemma hashes_to_spec a k : hashes_to a k = true <-> hash_key a = Ok k.
Proof.
  unfold hashes_to. destruct (hash_key a) as [k'|e].
  - rewrite bool_decide_eq_true. split; [intros ->; reflexivity|congruence].
  - split; discriminate.
Qed.

Lemma index_lookup_entry_at a k tc :
  hash_key a = Ok k -> index_lookup a tc = entry_at k tc.
Proof.
  intros Ha. unfold index_lookup.
  induction tc as [|[a' e'] tc IH]; simpl; [reflexivity|].
  rewrite (same_key_hashes a a' k Ha), IH. reflexivity.
Qed.

Lemma entry_at_set a k e tc k' :
  hash_key a = Ok k ->
  entry_at k' (index_set a e tc) =
    if decide (k' = k) then Some e else entry_at k' tc.
Proof.
  intros Ha. unfold index_set.
  induction tc as [|[a' e'] tc IH]; simpl.
  - unfold hashes_to. rewrite Ha.
    destruct (decide (k' = k)) as [->|Hne].
    + rewrite bool_decide_true by reflexivity. reflexivity.
    + rewrite bool_decide_false by congruence. reflexivity.
  - rewrite (same_key_hashes a a' k Ha).
    destruct (hashes_to a' k) eqn:Hk; simpl.
    + apply hashes_to_spec in Hk.
      destruct (decide (k' = k)) as [->|Hne].
      * rewrite (proj2 (hashes_to_spec a' k) Hk). reflexivity.
      * destruct (hashes_to a' k') eqn:Hk'; [|reflexivity].
        apply hashes_to_spec in Hk'. congruence.
    + destruct (hashes_to a' k') eqn:Hk'; [|exact IH].
      destruct (decide (k' = k)) as [->|Hne]; [congruence|reflexivity].
Qed.

Lemma index_keys_set a k e tc :
  hash_key a = Ok k ->
  index_keys (index_set a e tc) =
    match entry_at k tc with
    | Some _ => index_keys tc
    | None => index_keys tc ++ [Ok k]
    end.
Proof.
  intros Ha. unfold index_set, index_keys.
  induction tc as [|[a' e'] tc IH]; simpl.
  - rewrite Ha. reflexivity.
  - rewrite (same_key_hashes a a' k Ha).
    destruct (hashes_to a' k); simpl; [reflexivity|].
    rewrite IH. destruct (entry_at k tc); reflexivity.
Qed.

Lemma index_keys_entry_at k tc :
  Ok k ∈ index_keys tc <-> is_Some (entry_at k tc).
Proof.
  unfold index_keys. induction tc as [|[a e] tc IH]; simpl.
  - split; [intros Hin; inversion Hin | intros [? ?]; discriminate].
  - rewrite elem_of_cons, IH. destruct (hashes_to a k) eqn:Hk.
    + apply hashes_to_spec in Hk. split; [eauto|]. intros _. left.
      symmetry. exact Hk.
    + split; [|tauto]. intros [Heq|Hin]; [|exact Hin].
      symmetry in Heq. apply hashes_to_spec in Heq. congruence.
Qed.

(** With distinct keys, an entry of the index is the entry at its key. *)
Lemma entry_at_elem a e k tc :
  NoDup (index_keys tc) -> (a, e) ∈ tc -> hash_key a = Ok k ->
  entry_at k tc = Some e.
Proof.
  unfold index_keys. induction tc as [|[a' e'] tc IH]; simpl;
    intros Hnd Hin Ha; [inversion Hin|].
  apply NoDup_cons in Hnd as [Hfresh Hnd].
  apply elem_of_cons in Hin as [Heq|Hin].
  - injection Heq as <- <-. rewrite (proj2 (hashes_to_spec a k) Ha). reflexivity.
  - destruct (hashes_to a' k) eqn:Hk; [|apply IH; assumption].
    apply hashes_to_spec in Hk. exfalso. apply Hfresh. rewrite Hk, <- Ha.
    apply (list_elem_of_fmap_2 (fun kv => hash_key (fst kv)) tc (a, e)), Hin.
Qed.

Lemma entry_at_in k e tc :
  entry_at k tc = Some e -> exists a, (a, e) ∈ tc /\ hash_key a = Ok k.
Proof.
  induction tc as [|[a' e'] tc IH]; simpl; [discriminate|].
  destruct (hashes_to a' k) eqn:Hk.
  - intros He. injection He as ->. exists a'. split; [left|].
    apply hashes_to_spec, Hk.
  - intros He. destruct (IH He) as (a & Hin & Ha). exists a.
    split; [right; exact Hin|exact Ha].
Qed.

(** What one round of the lookup loop does to the index: the entry at the
    record's address is created with the record's name, or keeps its name;
    its sub-map gets the category; every other entry stays. *)
Lemma add_trader_step c t tc tc' :
  add_trader c t tc = Ok tc' ->
  exists a k e' stats,
    getitem t "trader" = Ok a /\ hash_key a = Ok k /\
    entry_at k tc' = Some e' /\
    (forall k', k' <> k -> entry_at k' tc' = entry_at k' tc) /\
    match entry_at k tc with
    | Some e =>
        trader_name e' = trader_name e /\
        categories e' = str_set c stats (categories e) /\
        index_keys tc' = index_keys tc
    | None =>
        getitem t "trader_name" = Ok (trader_name e') /\
        categories e' = str_set c stats [] /\
        index_keys tc' = index_keys tc ++ [Ok k]
    end.
Proof.
  unfold add_trader.
  destruct (getitem t "trader") as [a|] eqn:Ha; [|discriminate]. simpl.
  destruct (hash_key a) as [k|] eqn:Hk; [|discriminate]. simpl.
  unfold dict_mem. fold (index_lookup a tc).
  rewrite (index_lookup_entry_at a k tc Hk).
  destruct (entry_at k tc) as [e|] eqn:He; simpl.
  - destruct (getitem t "overall_gain") as [pnl|]; [|discriminate]. simpl.
    destruct (getitem t "win_rate") as [wr|]; [|discriminate]. simpl.
    destruct (getitem t "total_positions") as [pos|]; [|discriminate]. simpl.
    destruct (py_get t "rank" JNull) as [rank|]; [|discriminate]. simpl.
    rewrite (index_lookup_entry_at a k tc Hk), He.
    intros Hok. injection Hok as <-.
    eexists a, k, _, _. rewrite He. split; [reflexivity|]. split; [exact Hk|].
    split; [|split; [|split; [|split]]].
    + rewrite (entry_at_set a k _ tc k Hk), decide_True by reflexivity.
      reflexivity.
    + intros k' Hne. rewrite (entry_at_set a k _ tc k' Hk).
      rewrite decide_False by exact Hne. reflexivity.
    + reflexivity.
    + reflexivity.
    + rewrite (index_keys_set a k _ tc Hk), He. reflexivity.
  - destruct (getitem t "trader_name") as [name|]; [|discriminate]. simpl.
    destruct (getitem t "overall_gain") as [pnl|]; [|discriminate]. simpl.
    destruct (getitem t "win_rate") as [wr|]; [|discriminate]. simpl.
    destruct (getitem t "total_positions") as [pos|]; [|discriminate]. simpl.
    destruct (py_get t "rank" JNull) as [rank|]; [|discriminate]. simpl.
    rewrite (index_lookup_entry_at a k _ Hk).
    rewrite (entry_at_set a k _ tc k Hk), decide_True by reflexivity.
    intros Hok. injection Hok as <-.
    eexists a, k, _, _. rewrite He. split; [reflexivity|]. split; [exact Hk|].
    split; [|split; [|split; [|split]]].
    + rewrite (entry_at_set a k _ _ k Hk), decide_True by reflexivity.
      reflexivity.
    + intros k' Hne. rewrite !(entry_at_set a k _ _ k' Hk).
      rewrite !decide_False by exact Hne. reflexivity.
    + reflexivity.
    + reflexivity.
    + rewrite (index_keys_set a k _ _ Hk).
      rewrite (entry_at_set a k _ tc k Hk), decide_True by reflexivity.
      rewrite (index_keys_set a k _ tc Hk), He. reflexivity.
Qed.
Lemma str_set_keys {V} (k : string) (v : V) (d : list (string * V)) (k' : string) :
  k' ∈ map fst (str_set k v d) <-> k' = k \/ k' ∈ map fst d.
Proof.
  unfold str_set. induction d as [|[k0 v0] d IH]; simpl.
  - rewrite list_elem_of_singleton. split; [auto|].
    intros [Hk|Hk]; [exact Hk|inversion Hk].
  - destruct (String.eqb_spec k0 k) as [->|Hne]; simpl.
    + rewrite !elem_of_cons. tauto.
    + rewrite !elem_of_cons, IH. tauto.
Qed.

Lemma str_set_NoDup {V} (k : string) (v : V) (d : list (string * V)) :
  NoDup (map fst d) -> NoDup (map fst (str_set k v d)).
Proof.
  unfold str_set. induction d as [|[k0 v0] d IH]; simpl; intros Hnd.
  - apply NoDup_singleton.
  - apply NoDup_cons in Hnd as [Hk0 Hnd].
    destruct (String.eqb_spec k0 k) as [->|Hne]; simpl.
    + apply NoDup_cons. split; assumption.
    + apply NoDup_cons. split; [|apply IH, Hnd].
      intros Hin. apply (str_set_keys k v d k0) in Hin as [Heq|Hin];
        [congruence|contradiction].
Qed.

Lemma first_seen_snoc ps k name p :
  first_seen ps k name -> first_seen (ps ++ [p]) k name.
Proof.
  intros (ps1 & c & t & ps2 & -> & Hbefore & Ht & Hname).
  exists ps1, c, t, (ps2 ++ [p]). rewrite <- app_assoc. simpl.
  repeat split; assumption.
Qed.

Lemma lookup_inv_nil : lookup_inv [] [].
Proof.
  split; simpl.
  - intros x Hx. inversion Hx.
  - constructor.
  - intros k. split; [intros [? ?]; discriminate|].
    intros (c & t & Hin & _). inversion Hin.
  - discriminate.
  - discriminate.
Qed.

(** One round of the loop keeps the invariant. *)
Lemma add_trader_inv ps tc c t tc' :
  lookup_inv ps tc -> add_trader c t tc = Ok tc' ->
  lookup_inv (ps ++ [(c, t)]) tc'.
Proof.
  intros [Hhash Hnd Hpres Hcats Hname] Hstep.
  apply add_trader_step in Hstep
    as (a & k & e' & stats & Ha & Hk & He' & Hother & Hcase).
  assert (Haddr : address_of t = Some k).
  { unfold address_of. rewrite Ha, Hk. reflexivity. }
  assert (Hvisit : forall k0, k0 <> k ->
            (exists c0 t0, (c0, t0) ∈ ps ++ [(c, t)] /\ address_of t0 = Some k0) <->
            (exists c0 t0, (c0, t0) ∈ ps /\ address_of t0 = Some k0)).
  { intros k0 Hne. split; intros (c0 & t0 & Hin & Ht0).
    - apply elem_of_app in Hin as [Hin|Hin]; [eauto|].
      apply list_elem_of_singleton in Hin. injection Hin as -> ->. congruence.
    - exists c0, t0. split; [apply elem_of_app; left; exact Hin|exact Ht0]. }
  assert (Hvisit_c : forall k0 c0, k0 <> k ->
            (exists t0, (c0, t0) ∈ ps ++ [(c, t)] /\ address_of t0 = Some k0) <->
            (exists t0, (c0, t0) ∈ ps /\ address_of t0 = Some k0)).
  { intros k0 c0 Hne. split; intros (t0 & Hin & Ht0).
    - apply elem_of_app in Hin as [Hin|Hin]; [eauto|].
      apply list_elem_of_singleton in Hin. injection Hin as -> ->. congruence.
    - exists t0. split; [apply elem_of_app; left; exact Hin|exact Ht0]. }
  assert (Hkeys : index_keys tc' = index_keys tc \/
                  (entry_at k tc = None /\ index_keys tc' = index_keys tc ++ [Ok k])).
  { destruct (entry_at k tc); [left|right]; tauto. }
  split.
  - intros x Hx. destruct Hkeys as [Hkeys|[_ Hkeys]]; rewrite Hkeys in Hx;
      [apply Hhash, Hx|].
    apply elem_of_app in Hx as [Hx|Hx]; [apply Hhash, Hx|].
    apply list_elem_of_singleton in Hx. eauto.
  - destruct Hkeys as [->|[Hnone ->]]; [exact Hnd|].
    apply NoDup_app. split; [exact Hnd|]. split; [|apply NoDup_singleton].
    intros x Hx Hin. apply list_elem_of_singleton in Hin. subst x.
    apply index_keys_entry_at in Hx as [e He]. congruence.
  - intros k0. destruct (decide (k0 = k)) as [->|Hne].
    + split; [|intros _; rewrite He'; eauto].
      intros _. exists c, t. split; [|exact Haddr].
      apply elem_of_app. right. left.
    + rewrite (Hother k0 Hne), (Hvisit k0 Hne). apply Hpres.
  - intros k0 e0 He0. destruct (decide (k0 = k)) as [->|Hne].
    + rewrite He' in He0. injection He0 as <-.
      destruct (entry_at k tc) as [e|] eqn:He.
      * destruct Hcase as (_ & -> & _). destruct (Hcats k e He) as [Hnd_e Hin_e].
        split; [apply str_set_NoDup, Hnd_e|].
        intros c0. rewrite str_set_keys, Hin_e. split.
        -- intros [->|(t0 & Hin & Ht0)].
           ++ exists t. split; [apply elem_of_app; right; left|exact Haddr].
           ++ exists t0. split; [apply elem_of_app; left; exact Hin|exact Ht0].
        -- intros (t0 & Hin & Ht0).
           apply elem_of_app in Hin as [Hin|Hin]; [right; eauto|].
           apply list_elem_of_singleton in Hin. injection Hin as -> ->. left.
           reflexivity.
      * destruct Hcase as (_ & -> & _). split; [apply NoDup_singleton|].
        intros c0. simpl. rewrite list_elem_of_singleton. split.
        -- intros ->. exists t. split; [apply elem_of_app; right; left|exact Haddr].
        -- intros (t0 & Hin & Ht0).
           apply elem_of_app in Hin as [Hin|Hin].
           ++ assert (Hsome : is_Some (entry_at k tc)) by (apply Hpres; eauto).
              rewrite He in Hsome. destruct Hsome; discriminate.
           ++ apply list_elem_of_singleton in Hin. injection Hin as -> ->.
              reflexivity.
    + rewrite (Hother k0 Hne) in He0. destruct (Hcats k0 e0 He0) as [Hnd0 Hin0].
      split; [exact Hnd0|]. intros c0. rewrite (Hvisit_c k0 c0 Hne). apply Hin0.
  - intros k0 e0 He0. destruct (decide (k0 = k)) as [->|Hne].
    + rewrite He' in He0. injection He0 as <-.
      destruct (entry_at k tc) as [e|] eqn:He.
      * destruct Hcase as (-> & _). apply first_seen_snoc, Hname, He.
      * destruct Hcase as (Hn & _). exists ps, c, t, [].
        split; [reflexivity|]. split; [|split; assumption].
        intros [c0 t0] Hin Ht0. simpl in Ht0.
        assert (Hsome : is_Some (entry_at k tc)) by (apply Hpres; eauto).
        rewrite He in Hsome. destruct Hsome; discriminate.
    + rewrite (Hother k0 Hne) in He0. apply first_seen_snoc, Hname, He0.
Qed.

Lemma add_traders_inv c ts :
  forall ps tc tc',
    lookup_inv ps tc -> add_traders c ts tc = Ok tc' ->
    lookup_inv (ps ++ map (pair c) ts) tc'.
Proof.
  induction ts as [|t ts IH]; intros ps tc tc' Hinv Hrun; simpl in *.
  - injection Hrun as <-. rewrite app_nil_r. exact Hinv.
  - destruct (add_trader c t tc) as [tc1|] eqn:Hstep; [|discriminate].
    simpl in Hrun. rewrite (cons_middle (c, t)), app_assoc.
    apply (IH _ tc1); [|exact Hrun].
    apply (add_trader_inv ps tc c t tc1 Hinv Hstep).
Qed.

Lemma add_categories_inv items :
  forall ps tc tc',
    lookup_inv ps tc -> add_categories items tc = Ok tc' ->
    lookup_inv (ps ++ visits items) tc'.
Proof.
  induction items as [|[c v] items IH]; intros ps tc tc' Hinv Hrun; simpl in *.
  - injection Hrun as <-. rewrite app_nil_r. exact Hinv.
  - destruct (py_iter v) as [ts|] eqn:Hv; [|discriminate]. simpl in Hrun.
    destruct (add_traders c ts tc) as [tc1|] eqn:Hts; [|discriminate].
    simpl in Hrun. rewrite app_assoc. apply (IH _ tc1); [|exact Hrun].
    apply (add_traders_inv c ts ps tc tc1 Hinv Hts).
Qed.

Lemma build_lookup_inv categorized tc :
  build_lookup categorized = Ok tc -> lookup_inv (visits categorized) tc.
Proof.
  intros Hrun.
  apply (add_categories_inv categorized [] [] tc lookup_inv_nil Hrun).
Qed.

Lemma visits_listed categorized c t :
  (c, t) ∈ visits categorized <-> listed categorized c t.
Proof.
  unfold visits, listed. rewrite list_elem_of_In, in_flat_map. split.
  - intros ([c0 v] & Hitem & Hin). simpl in Hin.
    destruct (py_iter v) as [ts|] eqn:Hv; [|inversion Hin].
    apply list_elem_of_In, list_elem_of_fmap in Hin as (t0 & Heq & Ht0).
    injection Heq as -> ->. exists v, ts.
    split; [apply list_elem_of_In, Hitem|]. split; [exact Hv|exact Ht0].
  - intros (v & ts & Hitem & Hv & Ht). exists (c, v).
    split; [apply list_elem_of_In, Hitem|]. simpl. rewrite Hv.
    apply list_elem_of_In, list_elem_of_fmap. exists t. split; [reflexivity|exact Ht].
Qed.
(** *** Well-formed snapshots are indexed without an exception *)

Lemma is_record_inv t :
  is_record t = true ->
  exists a k name pnl wr pos rank,
    getitem t "trader" = Ok a /\ hash_key a = Ok k /\
    getitem t "trader_name" = Ok name /\
    getitem t "overall_gain" = Ok pnl /\
    getitem t "win_rate" = Ok wr /\
    getitem t "total_positions" = Ok pos /\
    py_get t "rank" JNull = Ok rank.
Proof.
  unfold is_record, address_of, has_key. simpl. intros Hrec.
  destruct (getitem t "trader") as [a|] eqn:Ha; [|discriminate]. simpl in Hrec.
  destruct (getitem t "trader_name") as [name|]; [|discriminate].
  destruct (getitem t "overall_gain") as [pnl|]; [|discriminate].
  destruct (getitem t "win_rate") as [wr|]; [|discriminate].
  destruct (getitem t "total_positions") as [pos|]; [|discriminate].
  destruct (hash_key a) as [k|] eqn:Hk; [|discriminate].
  assert (Hrank : exists rank, py_get t "rank" JNull = Ok rank).
  { destruct t; try discriminate. simpl.
    destruct (str_lookup "rank" d); eauto. }
  destruct Hrank as (rank & Hrank).
  exists a, k, name, pnl, wr, pos, rank. repeat split; first [reflexivity|assumption].
Qed.

Lemma add_trader_total c t tc :
  is_record t = true -> exists tc', add_trader c t tc = Ok tc'.
Proof.
  intros Hrec.
  destruct (is_record_inv t Hrec)
    as (a & k & name & pnl & wr & pos & rank & Ha & Hk & Hn & Hp & Hw & Hpos & Hr).
  unfold add_trader. rewrite Ha. simpl. rewrite Hk. simpl.
  unfold dict_mem. fold (index_lookup a tc).
  rewrite (index_lookup_entry_at a k tc Hk).
  destruct (entry_at k tc) as [e|] eqn:He; simpl.
  - rewrite Hp. simpl. rewrite Hw. simpl. rewrite Hpos. simpl. rewrite Hr. simpl.
    rewrite (index_lookup_entry_at a k tc Hk), He. eauto.
  - rewrite Hn. simpl. rewrite Hp. simpl. rewrite Hw. simpl. rewrite Hpos. simpl.
    rewrite Hr. simpl. rewrite (index_lookup_entry_at a k _ Hk).
    rewrite (entry_at_set a k _ tc k Hk), decide_True by reflexivity. eauto.
Qed.

Lemma add_traders_total c ts :
  forallb is_record ts = true -> forall tc, exists tc', add_traders c ts tc = Ok tc'.
Proof.
  induction ts as [|t ts IH]; simpl; intros Hall tc; [eauto|].
  apply andb_prop in Hall as [Ht Hts].
  destruct (add_trader_total c t tc Ht) as (tc1 & ->). simpl. apply IH, Hts.
Qed.

Lemma build_lookup_total categorized :
  well_formed categorized = true -> exists tc, build_lookup categorized = Ok tc.
Proof.
  unfold build_lookup, well_formed. generalize (@nil (json * entry)) as tc.
  induction categorized as [|[c v] items IH]; simpl; intros tc Hwf; [eauto|].
  apply andb_prop in Hwf as [Hv Hitems].
  destruct v as [| | | |ts|]; try discriminate. simpl.
  destruct (add_traders_total c ts Hv tc) as (tc1 & ->). simpl.
  apply IH, Hitems.
Qed.

(** C4.  On a CategorySnapshot (every category holds a list of
    TraderRecords) the lookup is built, and it has exactly one entry per
    distinct trader address that occurs in some category's list: the keys
    are pairwise distinct, and a key is present exactly when a listed
    record has that address.  The category sub-map of an entry has exactly
    one key per category whose list contains a record with the entry's
    address.  (An address may even occur several times in one list.) *)
Theorem index_has_one_entry_per_trader (categorized : snapshot) :
  well_formed categorized = true ->
  exists tc,
    build_lookup categorized = Ok tc /\
    NoDup (index_keys tc) /\
    (forall k, Ok k ∈ index_keys tc <->
               exists c t, listed categorized c t /\ address_of t = Some k) /\
    (forall a e, (a, e) ∈ tc ->
       exists k, hash_key a = Ok k /\
         NoDup (map fst (categories e)) /\
         forall c, c ∈ map fst (categories e) <->
                   exists t, listed categorized c t /\ address_of t = Some k).
Proof.
  intros Hwf. destruct (build_lookup_total categorized Hwf) as (tc & Hrun).
  exists tc. split; [exact Hrun|].
  destruct (build_lookup_inv categorized tc Hrun)
    as [Hhash Hnd Hpres Hcats _].
  split; [exact Hnd|]. split.
  - intros k. rewrite index_keys_entry_at, Hpres.
    split; intros (c & t & Hin & Ht); exists c, t;
      (split; [apply visits_listed, Hin|exact Ht]).
  - intros a e Hin.
    destruct (Hhash (hash_key a)) as (k & Hk).
    { apply (list_elem_of_fmap_2 (fun kv => hash_key (fst kv)) tc (a, e)), Hin. }
    exists k. split; [exact Hk|].
    destruct (Hcats k e (entry_at_elem a e k tc Hnd Hin Hk)) as [Hnd_e Hin_e].
    split; [exact Hnd_e|]. intros c. rewrite Hin_e.
    split; intros (t & Ht & Haddr); exists t;
      (split; [apply visits_listed, Ht|exact Haddr]).
Qed.

(** *** The first category of a trader *)

(** A position in the visiting order is a position in some category's
    list, after all the earlier categories. *)
Lemma visits_cons item items :
  visits (item :: items) = visits [item] ++ visits items.
Proof. unfold visits. simpl. rewrite app_nil_r. reflexivity. Qed.

Lemma visits_one c v :
  visits [(c, v)] =
    match py_iter v with Ok ts => map (pair c) ts | Raise _ => [] end.
Proof. unfold visits. simpl. apply app_nil_r. Qed.

Lemma visits_split categorized :
  forall ps1 c t ps2,
    visits categorized = ps1 ++ (c, t) :: ps2 ->
    exists before v after ts1 ts2,
      categorized = before ++ (c, v) :: after /\
      py_iter v = Ok (ts1 ++ t :: ts2) /\
      ps1 = visits before ++ map (pair c) ts1.
Proof.
  induction categorized as [|[c0 v0] items IH]; intros ps1 c t ps2 Hsplit.
  - destruct ps1; discriminate.
  - rewrite visits_cons in Hsplit.
    assert (Hlater : forall k,
              ps1 = visits [(c0, v0)] ++ k ->
              visits items = k ++ (c, t) :: ps2 ->
              exists before v after ts1 ts2,
                (c0, v0) :: items = before ++ (c, v) :: after /\
                py_iter v = Ok (ts1 ++ t :: ts2) /\
                ps1 = visits before ++ map (pair c) ts1).
    { intros k -> Hk.
      destruct (IH k c t ps2 Hk) as (before & v & after & ts1 & ts2 & -> & Hv & ->).
      exists ((c0, v0) :: before), v, after, ts1, ts2.
      split; [reflexivity|]. split; [exact Hv|].
      rewrite (visits_cons (c0, v0) before), <- app_assoc. reflexivity. }
    apply app_eq_inv in Hsplit as [(k & Hrow & Hk)|(k & Hps1 & Hk)].
    + destruct k as [|p k].
      * simpl in Hk. rewrite app_nil_r in Hrow. apply (Hlater []).
        -- rewrite app_nil_r. symmetry. exact Hrow.
        -- symmetry. exact Hk.
      * injection Hk as <- Hk. rewrite visits_one in Hrow.
        destruct (py_iter v0) as [ts|] eqn:Hv0; [|destruct ps1; discriminate].
        apply fmap_app_inv in Hrow as (ts1 & rest & -> & Hrest & ->).
        symmetry in Hrest.
        apply fmap_cons_inv in Hrest as (t' & ts2 & Heq & _ & ->).
        injection Heq as -> ->.
        exists [], v0, items, ts1, ts2. split; [reflexivity|].
        split; [exact Hv0|reflexivity].
    + apply (Hlater k); assumption.
Qed.

Lemma add_trader_keeps_name c t tc tc' k e :
  add_trader c t tc = Ok tc' -> entry_at k tc = Some e ->
  exists e',
    entry_at k tc' = Some e' /\ trader_name e' = trader_name e /\
    (categories e' = categories e \/
     exists stats, categories e' = str_set c stats (categories e)).
Proof.
  intros Hstep He.
  apply add_trader_step in Hstep
    as (a & k0 & e' & stats & _ & _ & He' & Hother & Hcase).
  destruct (decide (k = k0)) as [->|Hne].
  - rewrite He in Hcase. destruct Hcase as (Hn & Hc & _).
    exists e'. split; [exact He'|]. split; [exact Hn|]. right. eauto.
  - exists e. rewrite (Hother k Hne). auto.
Qed.

(** C10.  The [trader_name] stored for a trader is the one of that trader's
    first record in the first category, in the order of the snapshot, whose
    list has a record of the trader: no record of an earlier category and
    no earlier record of that category has the trader's address.  A round
    of the loop on an address already in the index leaves the stored name
    as it is and at most sets the round's category in the sub-map.  The
    snapshot that [main] builds has its categories in the order of
    [CATEGORIES]. *)
Theorem stored_name_is_from_first_category
    (categorized : snapshot) (tc : index) (a : json) (e : entry) :
  build_lookup categorized = Ok tc ->
  (a, e) ∈ tc ->
  (exists k before c v after ts1 t ts2,
     hash_key a = Ok k /\
     categorized = before ++ (c, v) :: after /\
     py_iter v = Ok (ts1 ++ t :: ts2) /\
     (forall c' t', listed before c' t' -> address_of t' <> Some k) /\
     (forall t', t' ∈ ts1 -> address_of t' <> Some k) /\
     address_of t = Some k /\
     getitem t "trader_name" = Ok (trader_name e)) /\
  (forall c' t' tc1 tc2 k1 e1,
     add_trader c' t' tc1 = Ok tc2 -> entry_at k1 tc1 = Some e1 ->
     exists e2,
       entry_at k1 tc2 = Some e2 /\ trader_name e2 = trader_name e1 /\
       (categories e2 = categories e1 \/
        exists stats, categories e2 = str_set c' stats (categories e1))) /\
  (forall srv w w',
     fetch_all srv w = (Ok categorized, w') -> map fst categorized = CATEGORIES).
Proof.
  intros Hrun Hin.
  split; [|split; [intros; eapply add_trader_keeps_name; eassumption
                  |intros srv w w'; apply fetch_all_keys]].
  destruct (build_lookup_inv categorized tc Hrun) as [Hhash Hnd _ _ Hname].
  destruct (Hhash (hash_key a)) as (k & Hk).
  { apply (list_elem_of_fmap_2 (fun kv => hash_key (fst kv)) tc (a, e)), Hin. }
  destruct (Hname k e (entry_at_elem a e k tc Hnd Hin Hk))
    as (ps1 & c & t & ps2 & Hvis & Hbefore & Ht & Hn).
  destruct (visits_split categorized ps1 c t ps2 Hvis)
    as (before & v & after & ts1 & ts2 & Hcat & Hv & Hps1).
  exists k, before, c, v, after, ts1, t, ts2.
  split; [exact Hk|]. split; [exact Hcat|]. split; [exact Hv|].
  split; [|split; [|split; assumption]].
  - intros c' t' Hl. apply (Hbefore (c', t')). rewrite Hps1.
    apply elem_of_app. left. apply visits_listed, Hl.
  - intros t' Ht'. apply (Hbefore (c, t')). rewrite Hps1.
    apply elem_of_app. right.
    apply (list_elem_of_fmap_2 (pair c) ts1 t'), Ht'.
Qed.
End Index.

Section Witnesses.
Import Samples.

Lemma in_CATEGORIES (P : string -> Prop) :
  Forall P CATEGORIES -> forall c, c ∈ CATEGORIES -> P c.
Proof. intros HP c Hc. rewrite Forall_forall in HP. apply HP, Hc. Defined.

(** Politics is down: it is recorded empty and the other ten categories are
    fetched and recorded all the same. *)
Lemma category_failure_is_isolated_witness :
  fst (fetch_traders_by_category politics_down "Politics" 100 start) = Ok (JArr []) /\
  exists categorized w',
    fetch_all politics_down start = (Ok categorized, w') /\
    sent w' = sent start ++ map (fun c => category_request c 100) CATEGORIES /\
    map fst categorized = CATEGORIES /\
    str_lookup "Politics" categorized = Some (JArr []) /\
    forall c', c' ∈ CATEGORIES ->
      str_lookup c' categorized =
        data_of (politics_down (category_request c' 100)).
Proof.
  apply (category_failure_is_isolated politics_down "Politics"
           (Transport ConnectionError) start).
  - right. left.
  - reflexivity.
  - intros c' Hc' _. revert c' Hc'. apply in_CATEGORIES.
    repeat constructor; eexists; (split; [vm_compute; reflexivity|reflexivity]).
Defined.

(** A request that times out yields the empty list. *)
Lemma fetch_sends_one_unfiltered_request_witness :
  fst (fetch_traders_by_category timing_out "Sports" 100 start) = Ok (JArr []) /\
  sent (snd (fetch_traders_by_category timing_out "Sports" 100 start)) =
    [category_request "Sports" 100].
Proof.
  destruct (fetch_sends_one_unfiltered_request timing_out "Sports" 100 start)
    as (Hsent & _ & _ & _ & _ & _ & _ & _ & _ & _ & _ & Htimeout).
  rewrite (Htimeout eq_refl). split; reflexivity.
Defined.

(** Two servers that differ only outside the categories. *)
Lemma category_fetcher_is_deterministic_witness :
  main (H := plain_text) politics_down start =
  main (H := plain_text) politics_down_elsewhere start.
Proof.
  refine (proj1 (category_fetcher_is_deterministic (H := plain_text)
                   politics_down politics_down_elsewhere _) start).
  apply in_CATEGORIES. repeat constructor.
Defined.

Lemma summary_ranks_categories_with_traders_witness :
  exists ranked blocks w',
    print_summary sample_snapshot start = (Ok tt, w') /\
    stdout w' = stdout start ++ concat blocks /\
    Forall2 block_for ranked blocks /\
    Permutation ranked
      (filter (fun item => has_traders item = true) sample_snapshot) /\
    StronglySorted (fun a b => count b <= count a) ranked.
Proof.
  apply (summary_ranks_categories_with_traders sample_snapshot start).
  intros item Hitem. unfold sample_snapshot in Hitem.
  repeat (apply elem_of_cons in Hitem as [->|Hitem]; [vm_compute; eauto|]).
  inversion Hitem.
Defined.

Lemma index_has_one_entry_per_trader_witness :
  exists tc,
    build_lookup sample_snapshot = Ok tc /\ NoDup (index_keys tc).
Proof.
  destruct (index_has_one_entry_per_trader sample_snapshot eq_refl)
    as (tc & Hrun & Hnd & _).
  exists tc. split; assumption.
Defined.

(** The trader listed as alice under Sports and as alice.eth under Crypto
    is stored as alice. *)
Lemma stored_name_is_from_first_category_witness :
  trader_name sample_entry = JStr "alice" /\
  exists k before c v after ts1 t ts2,
    hash_key (JStr "0xa11ce") = Ok k /\
    sample_snapshot = before ++ (c, v) :: after /\
    py_iter v = Ok (ts1 ++ t :: ts2) /\
    (forall c' t', listed before c' t' -> address_of t' <> Some k) /\
    (forall t', t' ∈ ts1 -> address_of t' <> Some k) /\
    address_of t = Some k /\
    getitem t "trader_name" = Ok (trader_name sample_entry).
Proof.
  split; [reflexivity|].
  apply (stored_name_is_from_first_category sample_snapshot sample_index
           (JStr "0xa11ce") sample_entry eq_refl).
  left.
Defined.

(** C1 as stated fails: Politics is down and Crypto answers with
    [data] null.  The failure of Politics is passed, but [len(None)] then
    ends the loop with an uncaught [TypeError] after three requests; the
    other eight categories are neither requested nor recorded. *)
Lemma failure_beside_unusable_response :
  "Politics" ∈ CATEGORIES /\
  error_of (politics_down_crypto_null (category_request "Politics" 100))
    = Some (Transport ConnectionError) /\
  fst (fetch_all politics_down_crypto_null start) = Raise TypeError /\
  sent (snd (fetch_all politics_down_crypto_null start)) =
    map (fun c => category_request c 100) ["Sports"; "Politics"; "Crypto"] /\
  ~ (exists categorized w',
       fetch_all politics_down_crypto_null start = (Ok categorized, w') /\
       sent w' = sent start ++ map (fun c => category_request c 100) CATEGORIES).
Proof.
  split; [right; left|]. split; [reflexivity|].
  split; [vm_compute; reflexivity|]. split; [vm_compute; reflexivity|].
  intros (categorized & w' & Hrun & _).
  assert (Hraise : fst (fetch_all politics_down_crypto_null start) = Raise TypeError)
    by (vm_compute; reflexivity).
  rewrite Hrun in Hraise. discriminate.
Qed.

(** C6 as stated fails: with Politics down the snapshot has the category
    Politics, and the summary has no block for it. *)
Lemma summary_omits_empty_categories :
  exists categorized w',
    fetch_all politics_down start = (Ok categorized, w') /\
    fst (print_summary categorized start) = Ok tt /\
    ~ summary_covers categorized (stdout (snd (print_summary categorized start))).
Proof.
  eexists _, _. split; [vm_compute; reflexivity|].
  split; [vm_compute; reflexivity|].
  intros Hcov. specialize (Hcov ("Politics", JArr [])).
  assert (Hmention : mentions
            (stdout (snd (print_summary
               (map (fun c => (c, stored politics_down c)) CATEGORIES) start)))
            "Politics" = false) by (vm_compute; reflexivity).
  vm_compute in Hmention. vm_compute in Hcov.
  specialize (Hcov ltac:(right; left)). discriminate.
Qed.
End Witnesses.

End CategorizerFacts.

(* ===================================================================== *)
(** ** Records with a missing key                                         *)
(* ===================================================================== *)

Module RunFacts.
Import Py Sys Vocabulary Samples.

Section MissingKeys.
Context `{JsonText}.

(** C8.  The accesses to the expected keys are not guarded: for each of
    [trader], [trader_name], [overall_gain], [win_rate] and
    [total_positions] there is a response (one record that lacks just that
    key) on which the run of either script ends with the uncaught
    [KeyError] of that key; the categorizer then has not written its
    lookup. *)
Theorem missing_key_ends_the_run :
  Forall (fun k =>
      getitem (without k alice) k = Raise (KeyError (JStr k)) /\
      fst (Categorizer.main (serving [without k alice]) start)
        = Raise (KeyError (JStr k)) /\
      files (snd (Categorizer.main (serving [without k alice]) start))
        !! Categorizer.lookup_name = None /\
      fst <$> Crawler.main (serving [without k alice]) 1 start
        = Some (Raise (KeyError (JStr k))))
    expected_keys.
Proof.
  unfold expected_keys.
  repeat (apply Forall_cons; split;
          [repeat split; vm_compute; reflexivity|]).
  apply Forall_nil. reflexivity.
Qed.
End MissingKeys.

End RunFacts.

(* ===================================================================== *)
(** ** More on the crawler                                                *)
(* ===================================================================== *)

Module CrawlerExtras.
Import Py Sys Vocabulary SysFacts Crawler CrawlerFacts.

Section Loop.
Variable srv : server.
Variables min_win_rate min_positions page_size : Z.

Abbreviation req := (page_request min_win_rate min_positions page_size).
Abbreviation step := (crawl_step srv min_win_rate min_positions page_size).
Abbreviation loop := (crawl_loop srv min_win_rate min_positions page_size).
Abbreviation crawl := (crawl_traders srv min_win_rate min_positions page_size).

(** Every iteration sends the request of its page and nothing else; it
    sleeps exactly when the loop goes on, and then to the next page. *)
Lemma crawl_step_shape page all w :
  exists r w',
    step page all w = (r, w') /\
    sent w' = sent w ++ [req page] /\
    match r with
    | Ok (Next, page', _) => page' = page + 1 /\ naps w' = S (naps w)
    | _ => naps w' = naps w
    end.
Proof.
  assert (Hdone : forall (r : outcome (ctl * Z * list json)) w',
            sent w' = sent w ++ [req page] ->
            match r with
            | Ok (Next, page', _) => page' = page + 1 /\ naps w' = S (naps w)
            | _ => naps w' = naps w
            end ->
            exists r0 w0,
              (r, w') = (r0, w0) /\ sent w0 = sent w ++ [req page] /\
              match r0 with
              | Ok (Next, page', _) => page' = page + 1 /\ naps w0 = S (naps w)
              | _ => naps w0 = naps w
              end) by (intros; eauto).
  unfold crawl_step, try_except, bind, requests_post.
  destruct (srv (req page)) as [e|status p|status]; simpl;
    [apply Hdone; simpl; auto|
    |destruct ((400 <=? status) && (status <? 600)); simpl;
     apply Hdone; simpl; auto].
  destruct ((400 <=? status) && (status <? 600)); simpl;
    [apply Hdone; simpl; auto|].
  destruct (py_get p "data" (JArr [])) as [v|[]]; simpl;
    try (apply Hdone; simpl; auto).
  destruct (truthy v); simpl; [|apply Hdone; simpl; auto].
  destruct (py_iter v) as [items|[]]; simpl; try (apply Hdone; simpl; auto).
  destruct (py_len v) as [n|[]]; simpl; try (apply Hdone; simpl; auto).
  destruct (n <? page_size); simpl; apply Hdone; simpl; auto.
Qed.

Lemma crawl_loop_requests fuel :
  forall page all w r w',
    loop fuel page all w = Some (r, w') ->
    exists n : nat,
      (1 <= n)%nat /\
      sent w' = sent w ++ map req (page_numbers page n) /\
      naps w' = (naps w + (n - 1))%nat.
Proof.
  induction fuel as [|fuel IH]; intros page all w r w' Hrun; [discriminate|].
  simpl in Hrun.
  destruct (crawl_step_shape page all w) as (o & w1 & Hstep & Hsent & Hnaps).
  rewrite Hstep in Hrun.
  assert (Hlast : naps w1 = naps w -> w1 = w' ->
            exists n : nat,
              (1 <= n)%nat /\
              sent w' = sent w ++ map req (page_numbers page n) /\
              naps w' = (naps w + (n - 1))%nat).
  { intros Hn <-. exists 1%nat. split; [lia|]. split; [exact Hsent|]. lia. }
  destruct o as [[[[] page'] all']|e].
  - injection Hrun as _ Hw. apply Hlast; assumption.
  - destruct Hnaps as [-> Hnaps].
    apply IH in Hrun as (n & Hn & Hs & Hz). exists (S n). split; [lia|].
    split.
    + rewrite Hs, Hsent. simpl. rewrite <- app_assoc. reflexivity.
    + lia.
  - injection Hrun as _ Hw. apply Hlast; assumption.
Qed.

(** X1.  However the server answers, when [crawl_traders] ends (with a list
    or with an exception) it has requested the pages 1, 2, ..., n in this
    order for some n >= 1, each once and nothing else, and has called
    [time.sleep] n - 1 times in all. *)
Theorem crawl_requests_consecutive_pages (fuel : nat) (w : world)
    (r : outcome (list json)) (w' : world) :
  crawl fuel w = Some (r, w') ->
  exists n : nat,
    (1 <= n)%nat /\
    sent w' = sent w ++ map req (page_numbers 1 n) /\
    naps w' = (naps w + (n - 1))%nat.
Proof.
  unfold crawl_traders. simpl. intros Hrun.
  apply crawl_loop_requests in Hrun. exact Hrun.
Qed.

Lemma crawl_loop_endless fuel :
  forall page all w,
    1 <= page ->
    (forall p, 1 <= p ->
       exists recs, records_of (srv (req p)) = Some recs /\
                    full_page page_size recs) ->
    loop fuel page all w = None.
Proof.
  induction fuel as [|fuel IH]; intros page all w Hpage Hfull; [reflexivity|].
  destruct (Hfull page Hpage) as (recs & Hr & Hf). simpl.
  rewrite (crawl_step_full _ _ _ _ _ _ _ _ Hr Hf).
  apply IH; [lia|exact Hfull].
Qed.

(** X2.  The loop has no bound of its own: against a server whose every
    page is full (non-empty, at least [page_size] records) the crawl does
    not end, whatever the number of iterations allowed. *)
Theorem crawl_never_ends_on_full_pages :
  (forall p, 1 <= p ->
     exists recs, records_of (srv (req p)) = Some recs /\
                  full_page page_size recs) ->
  forall fuel w, crawl fuel w = None.
Proof.
  intros Hfull fuel w. unfold crawl_traders. simpl.
  apply crawl_loop_endless; [lia|exact Hfull].
Qed.

(** X3.  A page that passes the status check and whose [data] is falsy
    (null, false, 0, 0.0, the empty string, list or object) ends the crawl
    like an empty page: the accumulator is returned as it stands and no
    page line is printed. *)
Theorem crawl_stops_at_falsy_data (page status : Z) (d : list (string * json))
    (v : json) (all : list json) (fuel : nat) (w : world) :
  srv (req page) = Response status (JObj d) ->
  error_of (Response status (JObj d)) = None ->
  str_lookup "data" d = Some v ->
  truthy v = false ->
  loop (S fuel) page all w =
    Some (Ok all, World (sent w ++ [req page]) (naps w) (stdout w) (files w)).
Proof.
  intros Hsrv Herr Hd Hv. simpl.
  unfold crawl_step, try_except, bind, requests_post. rewrite Hsrv. simpl.
  simpl in Herr.
  destruct ((400 <=? status) && (status <? 600)); [discriminate|]. simpl.
  rewrite Hd. simpl. rewrite Hv. reflexivity.
Qed.

(** X4.  An exception that is no [RequestException] is not caught: when a
    page passes the status check but its payload is not a JSON object, the
    loop ends with [AttributeError] and the accumulated records are not
    returned. *)
Theorem crawl_raises_on_non_object (page status : Z) (p : json)
    (all : list json) (fuel : nat) (w : world) :
  srv (req page) = Response status p ->
  error_of (Response status p) = None ->
  (forall d, p <> JObj d) ->
  loop (S fuel) page all w =
    Some (Raise AttributeError,
          World (sent w ++ [req page]) (naps w) (stdout w) (files w)).
Proof.
  intros Hsrv Herr Hp. simpl.
  unfold crawl_step, try_except, bind, requests_post. rewrite Hsrv. simpl.
  simpl in Herr.
  destruct ((400 <=? status) && (status <? 600)); [discriminate|]. simpl.
  destruct p; try reflexivity. exfalso. eapply Hp. reflexivity.
Qed.
End Loop.

Section Report.
Context `{JsonText}.
Variable srv : server.

Lemma keeps_print_top i t : keeps_files (print_top i t).
Proof. unfold print_top. frame. Qed.

Lemma bind_write {B} name text (k : unit -> M B) w :
  bind (write_file name text) k w =
    k tt (World (sent w) (naps w) (stdout w) (<[name := text]> (files w))).
Proof. reflexivity. Qed.

(** What [main] does with a non-empty list: the file first. *)
Lemma report_files (traders : list json) (w : world) :
  traders <> [] ->
  files (snd (report traders w)) =
    <[output_name := dump 0 (JArr traders)]> (files w).
Proof.
  intros Hne. destruct traders as [|t ts]; [contradiction|].
  unfold report. cbn [truthy negb]. rewrite bind_write.
  match goal with
  | |- files (snd (?m ?w0)) = _ =>
      assert (Hk : keeps_files m);
        [|rewrite (Hk w0); reflexivity]
  end.
  repeat (apply keeps_bind; [solve [auto with frame]|intros _]).
  apply keeps_bind; [|intros; apply keeps_ret].
  apply keeps_for_each. intros x i.
  apply keeps_bind; [apply keeps_print_top|intros; apply keeps_ret].
Qed.

(** X5.  [traders.json] is written before the top-five listing is printed:
    whenever the crawl returns a non-empty list, the run ends with the file
    holding that list, also when the listing then fails on a record. *)
Theorem main_writes_before_listing (fuel : nat) (w w1 : world)
    (traders : list json) :
  crawl_traders srv 67 30 100 fuel w = Some (Ok traders, w1) ->
  traders <> [] ->
  exists r w2,
    main srv fuel w = Some (r, w2) /\
    files w2 = <[output_name := dump 0 (JArr traders)]> (files w).
Proof.
  intros Hrun Hne. unfold main. rewrite Hrun.
  destruct (report traders w1) as [r w2] eqn:Hrep. exists r, w2.
  split; [reflexivity|].
  pose proof (report_files traders w1 Hne) as Hfiles. rewrite Hrep in Hfiles.
  simpl in Hfiles. rewrite Hfiles.
  apply crawl_traders_files in Hrun. rewrite Hrun. reflexivity.
Qed.

Lemma print_top_printable i t w :
  printable t = true -> exists w', print_top i t w = (Ok tt, w').
Proof.
  unfold printable, print_top, bind, lift, print, print_end.
  destruct (getitem t "trader_name") as [name|]; [|discriminate].
  destruct (getitem t "trader") as [addr|]; [|discriminate]. simpl.
  destruct (slice10 addr) as [short|]; [|discriminate].
  destruct (getitem t "overall_gain") as [gain|]; [|discriminate]. simpl.
  destruct (format_fixed2 gain) as [pnl|]; [|discriminate].
  destruct (getitem t "win_rate") as [rate|]; [|discriminate]. simpl.
  destruct (format_percent1 rate) as [wr|]; [|discriminate].
  destruct (getitem t "total_positions") as [positions|]; [|discriminate].
  intros _. eexists. reflexivity.
Qed.

Lemma listing_printable (l : list json) :
  forallb printable l = true ->
  forall i w,
    exists i' w',
      for_each l (fun t i => bind (print_top i t) (fun _ => ret (i + 1))) i w
        = (Ok i', w').
Proof.
  induction l as [|t l IH]; simpl; intros Hall i w; [eauto|].
  apply andb_prop in Hall as [Ht Hl].
  destruct (print_top_printable i t w Ht) as (w1 & Hstep).
  unfold bind at 1. unfold bind at 1. rewrite Hstep.
  apply IH, Hl.
Qed.

(** X6.  The listing looks at the first five records only: when the crawl
    returns a non-empty list whose first five records can be printed, the
    run completes, whatever the later records lack. *)
Theorem main_lists_first_five_only (fuel : nat) (w w1 : world)
    (traders : list json) :
  crawl_traders srv 67 30 100 fuel w = Some (Ok traders, w1) ->
  traders <> [] ->
  forallb printable (take 5 traders) = true ->
  exists w2, main srv fuel w = Some (Ok tt, w2).
Proof.
  intros Hrun Hne Hfive. unfold main. rewrite Hrun.
  destruct traders as [|t ts]; [contradiction|].
  unfold report. cbn [truthy negb]. rewrite bind_write.
  unfold bind at 1. unfold bind at 1. unfold bind at 1. unfold bind at 1.
  unfold bind at 1. unfold print at 1 2 3 4 5. unfold print_end at 1 2 3 4 5.
  unfold bind at 1.
  match goal with
  | |- context [for_each ?l ?body ?i ?w0] =>
      destruct (listing_printable l Hfive i w0) as (i' & w' & Hl)
  end.
  rewrite Hl. eexists. reflexivity.
Qed.

(** An uncaught exception of the crawl ends [main] with nothing written. *)
Lemma main_raises_with_crawl fuel w e w1 :
  crawl_traders srv 67 30 100 fuel w = Some (Raise e, w1) ->
  main srv fuel w = Some (Raise e, w1) /\ files w1 = files w.
Proof.
  intros Hrun. unfold main. rewrite Hrun. split; [reflexivity|].
  apply crawl_traders_files in Hrun. exact Hrun.
Qed.
End Report.

Section Witnesses.
Import Samples.

(** Two full pages and a 503: three requests, two sleeps. *)
Lemma crawl_requests_consecutive_pages_witness :
  exists r w',
    crawl_traders (paged two_full_and_a_partial (Response 503 JNull))
      67 30 100 3 start = Some (r, w') /\
    exists n : nat,
      (1 <= n)%nat /\
      sent w' = sent start ++ map (page_request 67 30 100) (page_numbers 1 n) /\
      naps w' = (naps start + (n - 1))%nat.
Proof.
  eexists _, _. split; [vm_compute; reflexivity|].
  eapply (crawl_requests_consecutive_pages
            (paged two_full_and_a_partial (Response 503 JNull)) 67 30 100
            3 start).
  vm_compute. reflexivity.
Defined.

Lemma crawl_never_ends_on_full_pages_witness :
  crawl_traders (serving (replicate 100 alice)) 67 30 100 7 start = None.
Proof.
  apply (crawl_never_ends_on_full_pages (serving (replicate 100 alice)) 67 30 100).
  intros p _. exists (replicate 100 alice).
  split; [vm_compute; reflexivity|].
  split; [discriminate|vm_compute; discriminate].
Defined.

Lemma crawl_stops_at_falsy_data_witness :
  crawl_loop null_data 67 30 100 1 4 [alice] start =
    Some (Ok [alice],
          World (sent start ++ [page_request 67 30 100 4]) (naps start)
                (stdout start) (files start)).
Proof.
  apply (crawl_stops_at_falsy_data null_data 67 30 100 4 200
           [("data", JNull)] JNull [alice] 0 start); reflexivity.
Defined.

Lemma crawl_raises_on_non_object_witness :
  crawl_loop (fun _ => bare_list) 67 30 100 1 2 [alice; bob] start =
    Some (Raise AttributeError,
          World (sent start ++ [page_request 67 30 100 2]) (naps start)
                (stdout start) (files start)).
Proof.
  apply (crawl_raises_on_non_object (fun _ => bare_list) 67 30 100 2 200
           (JArr [alice]) [alice; bob] 0 start);
    [reflexivity|reflexivity|discriminate].
Defined.

Lemma main_writes_before_listing_witness :
  exists r w2,
    main (H := plain_text) (paged [[without "win_rate" alice]] (page_of [])) 1 start
      = Some (r, w2) /\
    files w2 =
      <[output_name := dump (H := plain_text) 0 (JArr [without "win_rate" alice])]>
        (files start).
Proof.
  eapply (main_writes_before_listing (H := plain_text)
            (paged [[without "win_rate" alice]] (page_of [])) 1 start).
  - vm_compute. reflexivity.
  - discriminate.
Defined.

Lemma main_lists_first_five_only_witness :
  exists w2,
    main (H := plain_text) (paged [six_traders] (page_of [])) 1 start
      = Some (Ok tt, w2).
Proof.
  eapply (main_lists_first_five_only (H := plain_text)
            (paged [six_traders] (page_of [])) 1 start _ six_traders).
  - vm_compute. reflexivity.
  - discriminate.
  - vm_compute. reflexivity.
Defined.
(** A 200 whose body is not JSON is a request error like any other: the
    crawl stops there and returns the records of the page before. *)
Lemma crawl_stops_at_body_not_json :
  exists w',
    crawl_traders (paged [[alice; bob]] (Undecodable 200)) 67 30 2 2 start
      = Some (Ok [alice; bob], w') /\
    sent w' = map (page_request 67 30 2) [1; 2].
Proof. eexists. split; vm_compute; reflexivity. Qed.
End Witnesses.

End CrawlerExtras.

(* ===================================================================== *)
(** ** More on the category fetcher                                       *)
(* ===================================================================== *)

Module CategorizerExtras.
Import Py Sys Vocabulary SysFacts Categorizer CategorizerFacts.

Section Completion.
Variable srv : server.

Abbreviation req100 := (fun c => category_request c 100).

Lemma fetch_ok_data category limit w v w' :
  fetch_traders_by_category srv category limit w = (Ok v, w') ->
  data_of (srv (category_request category limit)) = Some v.
Proof.
  unfold fetch_traders_by_category, try_except, bind, requests_post, data_of,
    error_of.
  destruct (srv (category_request category limit)) as [e|status p|status];
    simpl.
  - intros Hrun. injection Hrun as <- _. reflexivity.
  - destruct ((400 <=? status) && (status <? 600)); simpl.
    + intros Hrun. injection Hrun as <- _. reflexivity.
    + destruct p; simpl; try discriminate.
      destruct (str_lookup "data" d); intros Hrun; injection Hrun as <- _;
        reflexivity.
  - destruct ((400 <=? status) && (status <? 600)); simpl;
      intros Hrun; injection Hrun as <- _; reflexivity.
Qed.

Lemma fetch_category_ok_answers category categorized w categorized' w' :
  fetch_category srv category categorized w = (Ok categorized', w') ->
  answers (srv (req100 category)).
Proof.
  unfold fetch_category. intros Hrun.
  apply bind_ok in Hrun as (? & w1 & _ & Hrun).
  apply bind_ok in Hrun as (v & w2 & Hfetch & Hrun).
  apply bind_ok in Hrun as (n & w3 & Hlen & _).
  exists v. split; [apply (fetch_ok_data _ _ _ _ _ Hfetch)|].
  unfold lift in Hlen. unfold sized. injection Hlen as -> _. reflexivity.
Qed.

Lemma for_each_ok_elem {A S} (l : list A) (body : A -> S -> M S) :
  forall s w s' w',
    for_each l body s w = (Ok s', w') ->
    forall x, x ∈ l -> exists s0 w0 s1 w1, body x s0 w0 = (Ok s1, w1).
Proof.
  induction l as [|y l IH]; intros s w s' w' Hrun x Hx; [inversion Hx|].
  simpl in Hrun. apply bind_ok in Hrun as (s1 & w1 & Hstep & Hrun).
  apply elem_of_cons in Hx as [->|Hx]; [eauto|].
  eapply IH; eassumption.
Qed.

Lemma fetch_all_ok_answers w categorized w' :
  fetch_all srv w = (Ok categorized, w') ->
  forall c, c ∈ CATEGORIES -> answers (srv (req100 c)).
Proof.
  intros Hrun c Hc.
  destruct (for_each_ok_elem _ _ _ _ _ _ Hrun c Hc) as (s0 & w0 & s1 & w1 & Hstep).
  apply (fetch_category_ok_answers _ _ _ _ _ Hstep).
Qed.

(** X7.  The loop over the categories completes exactly when every
    category's response answers: it raises a [RequestException] (no
    response, a 4xx or 5xx status, or a body that is not JSON), or it
    passes the status check with a JSON object whose [data], if present, is
    a list, a string or an object.  Any other response (a JSON payload that
    is no object; [data] null, a number or a boolean) ends the loop with an
    exception. *)
Theorem fetch_loop_completes_iff_all_answer (w : world) :
  (exists categorized w', fetch_all srv w = (Ok categorized, w')) <->
  (forall c, c ∈ CATEGORIES -> answers (srv (req100 c))).
Proof.
  split.
  - intros (categorized & w' & Hrun). apply (fetch_all_ok_answers _ _ _ Hrun).
  - intros Hall. destruct (fetch_all_answers srv w Hall) as (w' & Hrun & _).
    eauto.
Qed.
End Completion.

Section Files.
Context `{JsonText}.
Variable srv : server.

Lemma bind_print {B} fs (k : unit -> M B) w :
  bind (print fs) k w =
    k tt (World (sent w) (naps w) (stdout w ++ fs ++ [Lit nl]) (files w)).
Proof. reflexivity. Qed.

Lemma bind_write_file {B} name text (k : unit -> M B) w :
  bind (write_file name text) k w =
    k tt (World (sent w) (naps w) (stdout w) (<[name := text]> (files w))).
Proof. reflexivity. Qed.

Lemma bind_keeps_cases {A B} (m : M A) (k : A -> M B) w :
  keeps_files m ->
  (exists e w1, m w = (Raise e, w1) /\ files w1 = files w /\
                bind m k w = (Raise e, w1)) \/
  (exists a w1, m w = (Ok a, w1) /\ files w1 = files w /\ bind m k w = k a w1).
Proof.
  intros Hk. specialize (Hk w). unfold bind.
  destruct (m w) as [[a|e] w1]; simpl in Hk; [right|left]; eauto.
Qed.

Lemma fetch_all_result w1 w2 :
  fst (fetch_all srv w1) = fst (fetch_all srv w2).
Proof.
  assert (Hu : uniform (fetch_all srv)).
  { unfold fetch_all. apply uniform_for_each. intros.
    apply uniform_fetch_category. }
  destruct Hu as (r & f & Hu).
  destruct (Hu w1) as [-> _]. destruct (Hu w2) as [-> _]. reflexivity.
Qed.

(** The three ways a run can leave the files. *)
Lemma main_cases w :
  (exists e, fst (main srv w) = Raise e /\
             (forall categorized, fst (fetch_all srv w) <> Ok categorized) /\
             files (snd (main srv w)) = files w) \/
  (exists e categorized,
     fst (main srv w) = Raise e /\
     fst (fetch_all srv w) = Ok categorized /\
     files (snd (main srv w)) =
       <[snapshot_name := dump 0 (JObj categorized)]> (files w)) \/
  (exists categorized tc,
     fst (main srv w) = Ok tt /\
     fst (fetch_all srv w) = Ok categorized /\
     build_lookup categorized = Ok tc /\
     files (snd (main srv w)) =
       <[lookup_name := dump 0 (index_json tc)]>
         (<[snapshot_name := dump 0 (JObj categorized)]> (files w))).
Proof.
  unfold main. rewrite !bind_print. cbv beta.
  match goal with
  | |- context [bind (fetch_all srv) ?k ?w0] =>
      destruct (bind_keeps_cases (fetch_all srv) k w0 (keeps_fetch_all srv))
        as [(e & w1 & Hfetch & Hf & ->)|(categorized & w1 & Hfetch & Hf & ->)];
      pose proof (fetch_all_result w0 w) as Hres
  end.
  - left. exists e. split; [reflexivity|]. split; [|exact Hf].
    intros categorized Hok. rewrite Hfetch, Hok in Hres. discriminate.
  - rewrite Hfetch in Hres. simpl in Hres. right.
    rewrite bind_write_file. rewrite !bind_print. cbv beta.
    match goal with
    | |- context [bind (print_summary categorized) ?k ?w0] =>
        destruct (bind_keeps_cases (print_summary categorized) k w0
                    (keeps_print_summary categorized))
          as [(e & w2 & _ & Hf2 & ->)|(? & w2 & _ & Hf2 & ->)]
    end.
    + left. exists e, categorized. split; [reflexivity|].
      split; [symmetry; exact Hres|]. cbn [files snd] in Hf2 |- *.
      rewrite Hf2, Hf. reflexivity.
    + rewrite bind_print. cbv beta. unfold bind at 1. unfold lift at 1.
      destruct (build_lookup categorized) as [tc|e] eqn:Hb.
      * right. exists categorized, tc. split; [reflexivity|].
        split; [symmetry; exact Hres|]. split; [exact Hb|].
        cbn [files snd bind write_file print print_end ret]. rewrite Hf2.
        cbn [files]. rewrite Hf. reflexivity.
      * left. exists e, categorized. split; [reflexivity|].
        split; [symmetry; exact Hres|]. cbn [files snd]. rewrite Hf2.
        cbn [files]. rewrite Hf. reflexivity.
Qed.

(** X8.  A run of the category fetcher leaves the files in one of three
    states.  When the loop over the categories raises, no file is touched.
    When it completes, [traders-by-category.json] holds the snapshot, also
    when the summary or the lookup then raises.
    [traders-category-lookup.json] is written only by a run that completes,
    and then holds the lookup built from that snapshot. *)
Theorem main_writes_in_two_steps (w : world) :
  (exists e, fst (main srv w) = Raise e /\
             (forall categorized, fst (fetch_all srv w) <> Ok categorized) /\
             files (snd (main srv w)) = files w) \/
  (exists e categorized,
     fst (main srv w) = Raise e /\
     fst (fetch_all srv w) = Ok categorized /\
     files (snd (main srv w)) =
       <[snapshot_name := dump 0 (JObj categorized)]> (files w)) \/
  (exists categorized tc,
     fst (main srv w) = Ok tt /\
     fst (fetch_all srv w) = Ok categorized /\
     build_lookup categorized = Ok tc /\
     files (snd (main srv w)) =
       <[lookup_name := dump 0 (index_json tc)]>
         (<[snapshot_name := dump 0 (JObj categorized)]> (files w))).
Proof. apply main_cases. Qed.

(** X9.  A response that does not answer (it decodes to JSON, but the
    payload is no object, or [data] is null, a number or a boolean) is
    fatal to the whole run, unlike a request error or a body that is not
    JSON: if any category's response is such, [main] ends with an exception
    and has written neither file. *)
Theorem malformed_response_aborts_run (c : string) (w : world) :
  c ∈ CATEGORIES ->
  ~ answers (srv (category_request c 100)) ->
  exists e,
    fst (main srv w) = Raise e /\ files (snd (main srv w)) = files w.
Proof.
  intros Hc Hbad.
  assert (Hnot : forall categorized, fst (fetch_all srv w) <> Ok categorized).
  { intros categorized Hok. apply Hbad.
    destruct (fetch_all srv w) as [r w'] eqn:Hrun. simpl in Hok. subst r.
    apply (fetch_all_ok_answers srv _ _ _ Hrun c Hc). }
  destruct (main_cases w)
    as [(e & He & _ & Hf)|[(e & cat & _ & Hok & _)|(cat & tc & _ & Hok & _)]].
  - eauto.
  - exfalso. apply (Hnot cat Hok).
  - exfalso. apply (Hnot cat Hok).
Qed.
End Files.

Section Ties.
Context {A : Type}.

(** Inserting passes over smaller keys only. *)
Lemma insert_by_key_filter (x : Z * A) l n :
  filter (fun p => fst p = n) (insert_by_key x l) =
  filter (fun p => fst p = n) (x :: l).
Proof.
  induction l as [|y l IH]; simpl; [reflexivity|].
  destruct (fst x <=? fst y) eqn:Hxy; [reflexivity|].
  apply Z.leb_gt in Hxy.
  rewrite (filter_cons _ y), IH, !(filter_cons _ x), (filter_cons _ y).
  destruct (decide (fst y = n)), (decide (fst x = n)); try reflexivity. lia.
Qed.

Lemma sort_by_key_stable (l : list (Z * A)) n :
  filter (fun p => fst p = n) (sort_by_key l) = filter (fun p => fst p = n) l.
Proof.
  induction l as [|x l IH]; simpl; [reflexivity|].
  rewrite insert_by_key_filter, !(filter_cons _ x), IH. reflexivity.
Qed.

Lemma decorate_ok (key : A -> outcome Z) l d :
  decorate key l = Ok d -> d = map (fun x => (key_value key x, x)) l.
Proof.
  revert d. induction l as [|x l IH]; simpl; intros d Hd.
  - injection Hd as <-. reflexivity.
  - unfold key_value at 1. destruct (key x) as [k|]; [|discriminate]. simpl in Hd.
    destruct (decorate key l) as [r|]; [|discriminate]. simpl in Hd.
    injection Hd as <-. rewrite (IH r eq_refl). reflexivity.
Qed.

Lemma filter_map_snd (k : A -> Z) (d : list (Z * A)) n :
  Forall (fun p => fst p = k (snd p)) d ->
  filter (fun x => k x = n) (map snd d) = map snd (filter (fun p => fst p = n) d).
Proof.
  induction 1 as [|p d Hp _ IH]; [reflexivity|].
  simpl map. rewrite !filter_cons, IH.
  destruct (decide (k (snd p) = n)), (decide (fst p = n)); try reflexivity;
    congruence.
Qed.

(** [sorted] is stable: the items filed under one key keep their order. *)
Lemma sorted_stable (key : A -> outcome Z) l r n :
  sorted key l = Ok r ->
  filter (fun x => key_value key x = n) r =
  filter (fun x => key_value key x = n) l.
Proof.
  unfold sorted. destruct (decorate key l) as [d|] eqn:Hd; [|discriminate].
  simpl. intros Hr. injection Hr as <-. apply decorate_ok in Hd. subst d.
  set (d := map (fun x => (key_value key x, x)) l).
  assert (Hd : Forall (fun p => fst p = key_value key (snd p)) d).
  { unfold d. apply Forall_forall. intros p Hp.
    apply list_elem_of_fmap in Hp as (x & -> & _). reflexivity. }
  rewrite (filter_map_snd (key_value key) (sort_by_key d) n).
  - rewrite sort_by_key_stable, <- (filter_map_snd (key_value key) d n Hd).
    unfold d. rewrite map_map. simpl. rewrite map_id. reflexivity.
  - apply (Permutation_Forall (x := d)); [|exact Hd].
    symmetry. apply sort_by_key_perm.
Qed.
End Ties.

Section Ranking.

Lemma by_count_value item : key_value by_count item = - count item.
Proof.
  unfold key_value, by_count, count. destruct (py_len (snd item)); reflexivity.
Qed.

(** X10.  The summary goes through the categories as [sorted] ranks them,
    and the ranking is stable: categories with the same number of traders
    come in the order of the snapshot (the order of [CATEGORIES]). *)
Theorem summary_keeps_order_among_ties (categorized ranked : snapshot) :
  sorted by_count categorized = Ok ranked ->
  (forall w,
     print_summary categorized w =
       for_each ranked (fun item _ => print_category item) tt w) /\
  (forall n,
     filter (fun item => count item = n) ranked =
     filter (fun item => count item = n) categorized).
Proof.
  intros Hsorted. split.
  - intros w. unfold print_summary, bind, lift. rewrite Hsorted. reflexivity.
  - intros n.
    rewrite (list_filter_iff (fun item => count item = n)
               (fun item => key_value by_count item = - n) ranked)
      by (intros item; rewrite by_count_value; lia).
    rewrite (list_filter_iff (fun item => count item = n)
               (fun item => key_value by_count item = - n) categorized)
      by (intros item; rewrite by_count_value; lia).
    apply sorted_stable, Hsorted.
Qed.
End Ranking.

Section Lookup.

(** Induction over the rounds of the lookup loop. *)
Lemma build_lookup_rounds (P : list (string * json) -> index -> Prop) :
  P [] [] ->
  (forall ps tc c t tc',
     P ps tc -> add_trader c t tc = Ok tc' -> P (ps ++ [(c, t)]) tc') ->
  forall categorized tc,
    build_lookup categorized = Ok tc -> P (visits categorized) tc.
Proof.
  intros Hnil Hstep.
  assert (Hts : forall c ts ps tc tc',
            P ps tc -> add_traders c ts tc = Ok tc' ->
            P (ps ++ map (pair c) ts) tc').
  { intros c ts. induction ts as [|t ts IH]; intros ps tc tc' HP Hrun;
      simpl in *.
    - injection Hrun as <-. rewrite app_nil_r. exact HP.
    - destruct (add_trader c t tc) as [tc1|] eqn:Ht; [|discriminate].
      simpl in Hrun. rewrite (cons_middle (c, t)), app_assoc.
      apply (IH _ tc1); [|exact Hrun]. apply (Hstep ps tc c t tc1 HP Ht). }
  assert (Hitems : forall items ps tc tc',
            P ps tc -> add_categories items tc = Ok tc' ->
            P (ps ++ visits items) tc').
  { intros items. induction items as [|[c v] items IH];
      intros ps tc tc' HP Hrun; simpl in *.
    - injection Hrun as <-. rewrite app_nil_r. exact HP.
    - destruct (py_iter v) as [ts|] eqn:Hv; [|discriminate]. simpl in Hrun.
      destruct (add_traders c ts tc) as [tc1|] eqn:Hrow; [|discriminate].
      simpl in Hrun. rewrite app_assoc. apply (IH _ tc1); [|exact Hrun].
      apply (Hts c ts ps tc tc1 HP Hrow). }
  intros categorized tc Hrun. apply (Hitems categorized [] [] tc Hnil Hrun).
Qed.

Lemma str_lookup_set {V} (k : string) (v : V) (d : list (string * V)) (k' : string) :
  str_lookup k' (str_set k v d) =
    if String.eqb k k' then Some v else str_lookup k' d.
Proof.
  unfold str_lookup, str_set. induction d as [|[k0 v0] d IH]; simpl.
  - reflexivity.
  - destruct (String.eqb_spec k0 k) as [->|Hne]; simpl.
    + destruct (String.eqb_spec k k'); reflexivity.
    + rewrite IH. destruct (String.eqb_spec k0 k') as [->|Hne'];
        [|reflexivity].
      destruct (String.eqb_spec k k'); [congruence|reflexivity].
Qed.

(** One round of the loop, with what it stores. *)
Lemma add_trader_stats c t tc tc' :
  add_trader c t tc = Ok tc' ->
  exists k e' stats,
    address_of t = Some k /\ record_stats t = Some stats /\
    entry_at k tc' = Some e' /\
    categories e' =
      str_set c stats (match entry_at k tc with
                       | Some e => categories e
                       | None => []
                       end) /\
    (forall k', k' <> k -> entry_at k' tc' = entry_at k' tc).
Proof.
  unfold add_trader, address_of, record_stats.
  destruct (getitem t "trader") as [a|] eqn:Ha; [|discriminate]. simpl.
  destruct (hash_key a) as [k|] eqn:Hk; [|discriminate]. simpl.
  unfold dict_mem. fold (index_lookup a tc).
  rewrite (index_lookup_entry_at a k tc Hk).
  destruct (entry_at k tc) as [e|] eqn:He; simpl.
  - destruct (getitem t "overall_gain") as [pnl|]; [|discriminate]. simpl.
    destruct (getitem t "win_rate") as [wr|]; [|discriminate]. simpl.
    destruct (getitem t "total_positions") as [pos|]; [|discriminate]. simpl.
    destruct (py_get t "rank" JNull) as [rank|]; [|discriminate]. simpl.
    rewrite (index_lookup_entry_at a k tc Hk), He.
    intros Hok. injection Hok as <-.
    eexists k, _, _. rewrite He. split; [reflexivity|]. split; [reflexivity|].
    split; [|split].
    + rewrite (entry_at_set a k _ tc k Hk), decide_True by reflexivity.
      reflexivity.
    + reflexivity.
    + intros k' Hne. rewrite (entry_at_set a k _ tc k' Hk).
      rewrite decide_False by exact Hne. reflexivity.
  - destruct (getitem t "trader_name") as [name|]; [|discriminate]. simpl.
    destruct (getitem t "overall_gain") as [pnl|]; [|discriminate]. simpl.
    destruct (getitem t "win_rate") as [wr|]; [|discriminate]. simpl.
    destruct (getitem t "total_positions") as [pos|]; [|discriminate]. simpl.
    destruct (py_get t "rank" JNull) as [rank|]; [|discriminate]. simpl.
    rewrite (index_lookup_entry_at a k _ Hk).
    rewrite (entry_at_set a k _ tc k Hk), decide_True by reflexivity.
    intros Hok. injection Hok as <-.
    eexists k, _, _. rewrite He. split; [reflexivity|]. split; [reflexivity|].
    split; [|split].
    + rewrite (entry_at_set a k _ _ k Hk), decide_True by reflexivity.
      reflexivity.
    + reflexivity.
    + intros k' Hne. rewrite !(entry_at_set a k _ _ k' Hk).
      rewrite !decide_False by exact Hne. reflexivity.
Qed.

Lemma stored_stats_snoc ps c t c0 k0 :
  stored_stats (ps ++ [(c, t)]) c0 k0 =
    if decide (c = c0 /\ address_of t = Some k0) then record_stats t
    else stored_stats ps c0 k0.
Proof.
  unfold stored_stats. rewrite filter_app, filter_cons, filter_nil. simpl.
  destruct (decide (c = c0 /\ address_of t = Some k0)).
  - rewrite last_snoc. reflexivity.
  - rewrite app_nil_r. reflexivity.
Qed.

Lemma stored_stats_unvisited ps c k :
  (forall c' t', (c', t') ∈ ps -> address_of t' <> Some k) ->
  stored_stats ps c k = None.
Proof.
  intros Hno. unfold stored_stats.
  destruct (last (filter (fun p => fst p = c /\ address_of (snd p) = Some k) ps))
    as [[c' t']|] eqn:Hlast; [|reflexivity].
  exfalso. apply last_Some in Hlast as (l' & Hl).
  assert (Hin : (c', t') ∈ filter
            (fun p => fst p = c /\ address_of (snd p) = Some k) ps).
  { rewrite Hl. apply elem_of_app. right. left. }
  apply list_elem_of_filter in Hin as [[_ Haddr] Hin]. simpl in Haddr.
  apply (Hno c' t' Hin Haddr).
Qed.

(** The invariant of the loop for the stored statistics. *)
Lemma stats_round ps tc c t tc' :
  lookup_inv ps tc /\
  (forall k e c0, entry_at k tc = Some e ->
     str_lookup c0 (categories e) = stored_stats ps c0 k) ->
  add_trader c t tc = Ok tc' ->
  lookup_inv (ps ++ [(c, t)]) tc' /\
  (forall k e c0, entry_at k tc' = Some e ->
     str_lookup c0 (categories e) = stored_stats (ps ++ [(c, t)]) c0 k).
Proof.
  intros [Hinv Hstats] Hstep.
  split; [apply (add_trader_inv ps tc c t tc' Hinv Hstep)|].
  apply add_trader_stats in Hstep
    as (k & e' & stats & Haddr & Hrec & He' & Hcats & Hother).
  intros k0 e0 c0 He0. rewrite stored_stats_snoc.
  destruct (decide (k0 = k)) as [->|Hne].
  - rewrite He' in He0. injection He0 as <-. rewrite Hcats, str_lookup_set.
    destruct (String.eqb_spec c c0) as [->|Hc].
    + rewrite decide_True by (split; [reflexivity|exact Haddr]).
      symmetry. exact Hrec.
    + rewrite decide_False by (intros [Heq _]; contradiction).
      destruct (entry_at k tc) as [e|] eqn:He; [apply Hstats, He|].
      symmetry. apply stored_stats_unvisited. intros c' t' Hin Ht'.
      assert (Hsome : is_Some (entry_at k tc))
        by (apply (inv_present _ _ Hinv); eauto).
      rewrite He in Hsome. destruct Hsome; discriminate.
  - rewrite (Hother k0 Hne) in He0.
    rewrite decide_False by (intros [_ Heq]; congruence).
    apply Hstats, He0.
Qed.

(** X11.  What the lookup stores for a trader under a category is read off
    the last record of that trader in the category's list (a later record
    overwrites an earlier one): [pnl] is the record's [overall_gain],
    [win_rate] its [win_rate], [positions] its [total_positions], and
    [rank] its [rank], or null when the record has none.  A category with
    no record of the trader has no key in the trader's sub-map. *)
Theorem lookup_stores_last_record_stats
    (categorized : snapshot) (tc : index) (a : json) (e : entry) :
  build_lookup categorized = Ok tc ->
  (a, e) ∈ tc ->
  exists k,
    hash_key a = Ok k /\
    forall c, str_lookup c (categories e) = stored_stats (visits categorized) c k.
Proof.
  intros Hrun Hin.
  destruct (build_lookup_rounds
              (fun ps tc => lookup_inv ps tc /\
                 forall k e c0, entry_at k tc = Some e ->
                   str_lookup c0 (categories e) = stored_stats ps c0 k))
    with (categorized := categorized) (tc := tc) as [Hinv Hstats].
  - split; [apply lookup_inv_nil|]. discriminate.
  - intros ps tc0 c t tc' HP Hstep. apply (stats_round ps tc0 c t tc' HP Hstep).
  - exact Hrun.
  - destruct (inv_hashable _ _ Hinv (hash_key a)) as (k & Hk).
    { apply (list_elem_of_fmap_2 (fun kv => hash_key (fst kv)) tc (a, e)), Hin. }
    exists k. split; [exact Hk|]. intros c. apply Hstats.
    apply (entry_at_elem a e k tc (inv_distinct _ _ Hinv) Hin Hk).
Qed.

Lemma addresses_snoc ps c t k :
  address_of t = Some k -> addresses (ps ++ [(c, t)]) = addresses ps ++ [k].
Proof.
  intros Ht. unfold addresses. rewrite omap_app. simpl. rewrite Ht. reflexivity.
Qed.

Lemma first_occurrences_snoc (l : list pykey) k :
  first_occurrences (l ++ [k]) =
    if decide (k ∈ l) then first_occurrences l else first_occurrences l ++ [k].
Proof.
  unfold first_occurrences. rewrite reverse_snoc. simpl.
  destruct (decide_rel elem_of k (reverse l)) as [Hin|Hnot];
    rewrite elem_of_reverse in *.
  - rewrite decide_True by exact Hin. reflexivity.
  - rewrite decide_False by exact Hnot. rewrite reverse_cons. reflexivity.
Qed.

Lemma key_order_round ps tc c t tc' :
  lookup_inv ps tc /\
  index_keys tc = map Ok (first_occurrences (addresses ps)) ->
  add_trader c t tc = Ok tc' ->
  lookup_inv (ps ++ [(c, t)]) tc' /\
  index_keys tc' = map Ok (first_occurrences (addresses (ps ++ [(c, t)]))).
Proof.
  intros [Hinv Hkeys] Hstep.
  split; [apply (add_trader_inv ps tc c t tc' Hinv Hstep)|].
  apply add_trader_step in Hstep
    as (a & k & e' & stats & Ha & Hk & _ & _ & Hcase).
  assert (Haddr : address_of t = Some k).
  { unfold address_of. rewrite Ha, Hk. reflexivity. }
  rewrite (addresses_snoc ps c t k Haddr), first_occurrences_snoc.
  assert (Hseen : k ∈ addresses ps <-> is_Some (entry_at k tc)).
  { rewrite (inv_present _ _ Hinv). unfold addresses.
    rewrite list_elem_of_omap. split.
    - intros ([c0 t0] & Hin & Ht0). eauto.
    - intros (c0 & t0 & Hin & Ht0). exists (c0, t0). auto. }
  destruct (entry_at k tc) as [e|] eqn:He.
  - destruct Hcase as (_ & _ & ->).
    rewrite decide_True by (apply Hseen; eauto). exact Hkeys.
  - destruct Hcase as (_ & _ & ->).
    rewrite decide_False by (rewrite Hseen; intros [? ?]; discriminate).
    rewrite map_app, Hkeys. reflexivity.
Qed.

(** X12.  The lookup lists the traders in the order in which their
    addresses first occur in the snapshot (categories in order, each list in
    order); so does the file written from it, and the number printed as
    "Unique traders across categories" is the number of distinct
    addresses. *)
Theorem lookup_keys_in_first_seen_order (categorized : snapshot) (tc : index) :
  build_lookup categorized = Ok tc ->
  index_keys tc = map Ok (first_occurrences (addresses (visits categorized))) /\
  NoDup (first_occurrences (addresses (visits categorized))) /\
  (forall k, k ∈ first_occurrences (addresses (visits categorized)) <->
             k ∈ addresses (visits categorized)) /\
  length tc = length (first_occurrences (addresses (visits categorized))).
Proof.
  intros Hrun.
  destruct (build_lookup_rounds
              (fun ps tc => lookup_inv ps tc /\
                 index_keys tc = map Ok (first_occurrences (addresses ps))))
    with (categorized := categorized) (tc := tc) as [_ Hkeys].
  - split; [apply lookup_inv_nil|reflexivity].
  - intros ps tc0 c t tc' HP Hstep.
    apply (key_order_round ps tc0 c t tc' HP Hstep).
  - exact Hrun.
  - split; [exact Hkeys|]. split; [|split].
    + unfold first_occurrences. rewrite reverse_Permutation.
      apply NoDup_remove_dups.
    + intros k. unfold first_occurrences.
      rewrite elem_of_reverse, elem_of_remove_dups, elem_of_reverse.
      reflexivity.
    + transitivity (length (index_keys tc)).
      * unfold index_keys. rewrite length_map. reflexivity.
      * rewrite Hkeys, length_map. reflexivity.
Qed.
End Lookup.

Section Requests.
Context `{JsonText}.
Variable srv : server.

Lemma silent_ret {A} (a : A) : silent (ret a).
Proof. intros w. split; reflexivity. Qed.

Lemma silent_lift {A} (o : outcome A) : silent (lift o).
Proof. intros w. split; reflexivity. Qed.

Lemma silent_print_end fs e : silent (print_end fs e).
Proof. intros w. split; reflexivity. Qed.

Lemma silent_print fs : silent (print fs).
Proof. intros w. split; reflexivity. Qed.

Lemma silent_write name text : silent (write_file name text).
Proof. intros w. split; reflexivity. Qed.

Lemma silent_bind {A B} (m : M A) (k : A -> M B) :
  silent m -> (forall a, silent (k a)) -> silent (bind m k).
Proof.
  intros Hm Hk w. unfold bind. specialize (Hm w).
  destruct (m w) as [[a|e] w1]; simpl in Hm; [|exact Hm].
  destruct (Hk a w1) as [Hs Hn]. destruct Hm as [Hs1 Hn1].
  split; congruence.
Qed.

Lemma silent_for_each {A S} (l : list A) (body : A -> S -> M S) s :
  (forall x s', silent (body x s')) -> silent (for_each l body s).
Proof.
  intros Hb. revert s. induction l as [|x l IH]; intros s; simpl.
  - apply silent_ret.
  - apply silent_bind; [apply Hb | intros; apply IH].
Qed.

Lemma silent_print_category item : silent (print_category item).
Proof.
  destruct item as [category traders]. unfold print_category.
  destruct (truthy traders); [|apply silent_ret].
  repeat (apply silent_bind;
          [first [apply silent_lift | apply silent_print]|intros]).
  apply silent_print.
Qed.

Lemma silent_print_summary categorized : silent (print_summary categorized).
Proof.
  unfold print_summary. apply silent_bind; [apply silent_lift|intros ranked].
  apply silent_for_each. intros. apply silent_print_category.
Qed.

(** After the loop over the categories nothing is sent. *)
Lemma silent_after_fetch categorized :
  silent
    (bind (write_file snapshot_name (dump 0 (JObj categorized))) (fun _ =>
     bind (print [Lit (nl +:+ rep "=" 60)]) (fun _ =>
     bind (print [Lit "SUMMARY"]) (fun _ =>
     bind (print [Lit (rep "=" 60)]) (fun _ =>
     bind (print_summary categorized) (fun _ =>
     bind (print [Lit (nl +:+ "Saved to: "); FPath snapshot_name]) (fun _ =>
     bind (lift (build_lookup categorized)) (fun trader_categories =>
     bind (write_file lookup_name (dump 0 (index_json trader_categories))) (fun _ =>
     bind (print [Lit "Lookup saved to: "; FPath lookup_name]) (fun _ =>
     print [Lit "Unique traders across categories: ";
            FInt (Z.of_nat (length trader_categories))])))))))))).
Proof.
  repeat (apply silent_bind;
          [first [apply silent_lift | apply silent_print | apply silent_write
                 | apply silent_print_summary]|intros]).
  apply silent_print.
Qed.

Lemma fetch_category_sends category categorized w :
  sent (snd (fetch_category srv category categorized w)) =
    sent w ++ [category_request category 100] /\
  naps (snd (fetch_category srv category categorized w)) = naps w.
Proof.
  unfold fetch_category, fetch_traders_by_category, try_except, bind,
    requests_post, print_end, print, lift, ret.
  destruct (srv (category_request category 100)) as [e|status p|status];
    simpl; [auto| |destruct ((400 <=? status) && (status <? 600)); simpl; auto].
  destruct ((400 <=? status) && (status <? 600)); simpl; [auto|].
  destruct (py_get p "data" (JArr [])) as [v|[]]; simpl; auto.
  destruct (py_len v) as [n|]; simpl; auto.
Qed.

Lemma fetch_loop_sends (l : list string) :
  forall categorized w,
    exists n : nat,
      (n <= length l)%nat /\
      sent (snd (for_each l (fetch_category srv) categorized w)) =
        sent w ++ map (fun c => category_request c 100) (take n l) /\
      naps (snd (for_each l (fetch_category srv) categorized w)) = naps w /\
      (forall categorized',
         fst (for_each l (fetch_category srv) categorized w) = Ok categorized' ->
         n = length l).
Proof.
  induction l as [|c l IH]; intros categorized w.
  - exists 0%nat. simpl. rewrite app_nil_r. auto.
  - destruct (fetch_category_sends c categorized w) as [Hs Hn].
    simpl for_each. unfold bind.
    destruct (fetch_category srv c categorized w) as [[acc|e] w1]; simpl in *.
    + destruct (IH acc w1) as (n & Hle & Hsent & Hnaps & Hall).
      exists (S n). split; [lia|]. split; [|split].
      * rewrite Hsent, Hs. simpl. rewrite <- app_assoc. reflexivity.
      * congruence.
      * intros categorized' Hok. rewrite (Hall categorized' Hok). reflexivity.
    + exists 1%nat. split; [lia|]. split; [|split].
      * rewrite Hs. reflexivity.
      * exact Hn.
      * discriminate.
Qed.

Lemma bind_silent_tail {A B} (m : M A) (k : A -> M B) w :
  (forall a, silent (k a)) ->
  sent (snd (bind m k w)) = sent (snd (m w)) /\
  naps (snd (bind m k w)) = naps (snd (m w)) /\
  (forall b, fst (bind m k w) = Ok b -> exists a, fst (m w) = Ok a).
Proof.
  intros Hk. unfold bind. destruct (m w) as [[a|e] w1]; simpl.
  - destruct (Hk a w1) as [Hs Hn]. eauto.
  - repeat split. discriminate.
Qed.

(** X13.  All that a run of the category fetcher sends is the requests of
    the first n categories of [CATEGORIES], in order and once each, for
    some n <= 11, and n = 11 when the run completes; it never sleeps
    between requests. *)
Theorem main_requests_categories_in_order (w : world) :
  exists n : nat,
    (n <= 11)%nat /\
    sent (snd (main srv w)) =
      sent w ++ map (fun c => category_request c 100) (take n CATEGORIES) /\
    naps (snd (main srv w)) = naps w /\
    (fst (main srv w) = Ok tt -> n = 11%nat).
Proof.
  unfold main. rewrite !bind_print. cbv beta.
  match goal with
  | |- context [bind (fetch_all srv) ?k ?w0] =>
      destruct (bind_silent_tail (fetch_all srv) k w0 silent_after_fetch)
        as (Hs & Hn & Hok);
      destruct (fetch_loop_sends CATEGORIES [] w0)
        as (n & Hle & Hsent & Hnaps & Hall)
  end.
  fold (fetch_all srv) in Hsent, Hnaps, Hall.
  exists n. rewrite Hs, Hn. split; [exact Hle|].
  split; [exact Hsent|]. split; [exact Hnaps|].
  intros Hrun. destruct (Hok tt Hrun) as (categorized & Hfetch).
  apply (Hall categorized Hfetch).
Qed.
End Requests.

Section Witnesses.
Import Samples.

Lemma malformed_response_aborts_run_witness :
  exists e,
    fst (main (H := plain_text) sports_malformed start) = Raise e /\
    files (snd (main (H := plain_text) sports_malformed start)) = files start.
Proof.
  apply (malformed_response_aborts_run (H := plain_text) sports_malformed
           "Sports" start).
  - left.
  - intros (v & Hv & _). vm_compute in Hv. discriminate.
Defined.

(** Sports and Crypto have two traders each: Sports stays first. *)
Lemma summary_keeps_order_among_ties_witness :
  exists ranked,
    sorted by_count tied_snapshot = Ok ranked /\
    map fst ranked = ["Sports"; "Crypto"; "Politics"] /\
    filter (fun item => count item = 2) ranked =
    filter (fun item => count item = 2) tied_snapshot.
Proof.
  eexists. split; [vm_compute; reflexivity|]. split; [reflexivity|].
  refine (proj2 (summary_keeps_order_among_ties tied_snapshot _ _) 2).
  vm_compute. reflexivity.
Defined.

(** The trader listed twice under Sports is stored with the second gain. *)
Lemma lookup_stores_last_record_stats_witness :
  str_lookup "Sports" (categories repeated_entry) =
    record_stats (trader "0xa11ce" "alice" 7) /\
  exists k,
    hash_key (JStr "0xa11ce") = Ok k /\
    forall c, str_lookup c (categories repeated_entry) =
              stored_stats (visits repeated_snapshot) c k.
Proof.
  split; [reflexivity|].
  apply (lookup_stores_last_record_stats repeated_snapshot repeated_index
           (JStr "0xa11ce") repeated_entry eq_refl).
  left.
Defined.

Lemma lookup_keys_in_first_seen_order_witness :
  index_keys sample_index = [Ok (KStr "0xa11ce"); Ok (KStr "0xb0b"); Ok (KStr "0xca401")] /\
  index_keys sample_index =
    map Ok (first_occurrences (addresses (visits sample_snapshot))).
Proof.
  split; [reflexivity|].
  apply (lookup_keys_in_first_seen_order sample_snapshot sample_index eq_refl).
Defined.
(** A 200 whose body is not JSON is caught in the fetch: the category
    holds the empty list and the loop goes on through all the categories. *)
Lemma fetch_catches_body_not_json :
  error_of (sports_not_json (category_request "Sports" 100)) = Some InvalidJSON /\
  fst (fetch_traders_by_category sports_not_json "Sports" 100 start) = Ok (JArr []) /\
  exists categorized w',
    fetch_all sports_not_json start = (Ok categorized, w') /\
    str_lookup "Sports" categorized = Some (JArr []) /\
    str_lookup "Politics" categorized = Some (JArr [alice]) /\
    length (sent w') = 11%nat.
Proof.
  split; [reflexivity|]. split; [vm_compute; reflexivity|].
  eexists _, _. split; [vm_compute; reflexivity|].
  repeat split; vm_compute; reflexivity.
Qed.
End Witnesses.

End CategorizerExtras.
